(** * HP 48 "Red Eye" infrared link: receiver and emitter

    A shallow embedding of [ir_reciever.c], [uart.c], the receiver's
    [main.c] and [ir_emitter.c].

    Fixed-width C integers are integers of [Z] with the wrap-around written
    out ([u8], [u16], [u32], [u64]); the C arrays are lists read with [rd]
    and updated with stdpp's list insert; the volatile globals of the
    receiver form the record [receiver], threaded explicitly through the
    foreground functions and the two interrupt handlers.  The emitter
    drives one pin and busy-waits: its functions thread the record
    [emitter], whose field [line] logs every pin level and every delay in
    order and whose field [half_start_bits] is the pointer through which
    the preamble of a frame is read.  The UART functions thread the record
    [uart] in an option monad: the reads of its volatile registers are
    given in advance, and [None] is a busy-wait that has not ended. *)

From stdpp Require Import list numbers.
From Stdlib Require Import QArith.

Local Open Scope Z_scope.

(** ** Machine arithmetic *)

Definition u8 (z : Z) : Z := z mod 2 ^ 8.
Definition u16 (z : Z) : Z := z mod 2 ^ 16.
Definition u64 (z : Z) : Z := z mod 2 ^ 64.

(** [_BV(bit)] of AVR Libc, and the macros of [bitwiseop.h] applied to an
    8-bit lvalue. *)
Definition _BV (bit : Z) : Z := Z.shiftl 1 bit.
Definition _set_bit (byte bit : Z) : Z := u8 (Z.lor byte (_BV bit)).
Definition _clear_bit (byte bit : Z) : Z := u8 (Z.land byte (Z.lnot (_BV bit))).
Definition _set_two_bits (byte frist second : Z) : Z :=
  u8 (Z.lor byte (Z.lor (_BV frist) (_BV second))).

(** Array read [a[i]] and write [a[i] = v] for an unsigned index.  A read
    outside the list yields 0 and a write outside it leaves the list as it
    is; the places where the program can leave an array are tracked
    separately (see [bit_writes]). *)
Definition rd (a : list Z) (i : Z) : Z := default 0 (a !! Z.to_nat i).
Definition wr (a : list Z) (i v : Z) : list Z := <[Z.to_nat i := v]> a.

(** ** Receiver: constants *)

Definition EVENT_BUFFER_SIZE : Z := 30.
Definition DATA_BUFFER_SIZE : Z := 12.

Definition FIRST_BIT_POS : Z := 51.
Definition SECOND_BIT_POS : Z := 47.
Definition THIRD_BIT_POS : Z := 43.
Definition FOURTH_BIT_POS : Z := 39.
Definition FIFTH_BIT_POS : Z := 35.
Definition SIXTH_BIT_POS : Z := 31.
Definition SEVENTH_BIT_POS : Z := 27.
Definition EIGHTH_BIT_POS : Z := 23.

(** Bit numbers of [TCCR1B] (ATmega328P data sheet). *)
Definition CS10 : Z := 0.
Definition ICES1 : Z := 6.
Definition ICNC1 : Z := 7.

(** ** Receiver: state

    The eight globals of [ir_reciever.c] and the timer control register
    the capture handler rewrites.  Two ghost fields record what the code
    does without changing what it computes: [bit_writes] lists, newest
    first, every call of [write_bit] as (index into [g_data_buffer], bit,
    level), and [decode_runs] counts the calls of [update_data_buffer]. *)
Record receiver := Receiver {
  g_last_event : Z;
  g_byte_cnt : Z;
  g_virtual_cnt : Z;
  g_is_edge_falling : bool;
  g_is_event_buffer_full : bool;
  g_event_buffer_index : Z;
  g_data_buffer : list Z;
  g_event_buffer : list Z;
  TCCR1B : Z;
  bit_writes : list (Z * Z * bool);
  decode_runs : nat
}.

Definition set_last_event (v : Z) (s : receiver) : receiver :=
  Receiver v (g_byte_cnt s) (g_virtual_cnt s) (g_is_edge_falling s)
    (g_is_event_buffer_full s) (g_event_buffer_index s) (g_data_buffer s)
    (g_event_buffer s) (TCCR1B s) (bit_writes s) (decode_runs s).

Definition set_byte_cnt (v : Z) (s : receiver) : receiver :=
  Receiver (g_last_event s) v (g_virtual_cnt s) (g_is_edge_falling s)
    (g_is_event_buffer_full s) (g_event_buffer_index s) (g_data_buffer s)
    (g_event_buffer s) (TCCR1B s) (bit_writes s) (decode_runs s).

Definition set_virtual_cnt (v : Z) (s : receiver) : receiver :=
  Receiver (g_last_event s) (g_byte_cnt s) v (g_is_edge_falling s)
    (g_is_event_buffer_full s) (g_event_buffer_index s) (g_data_buffer s)
    (g_event_buffer s) (TCCR1B s) (bit_writes s) (decode_runs s).

Definition set_is_edge_falling (v : bool) (s : receiver) : receiver :=
  Receiver (g_last_event s) (g_byte_cnt s) (g_virtual_cnt s) v
    (g_is_event_buffer_full s) (g_event_buffer_index s) (g_data_buffer s)
    (g_event_buffer s) (TCCR1B s) (bit_writes s) (decode_runs s).

Definition set_is_event_buffer_full (v : bool) (s : receiver) : receiver :=
  Receiver (g_last_event s) (g_byte_cnt s) (g_virtual_cnt s)
    (g_is_edge_falling s) v (g_event_buffer_index s) (g_data_buffer s)
    (g_event_buffer s) (TCCR1B s) (bit_writes s) (decode_runs s).

Definition set_event_buffer_index (v : Z) (s : receiver) : receiver :=
  Receiver (g_last_event s) (g_byte_cnt s) (g_virtual_cnt s)
    (g_is_edge_falling s) (g_is_event_buffer_full s) v (g_data_buffer s)
    (g_event_buffer s) (TCCR1B s) (bit_writes s) (decode_runs s).

Definition set_data_buffer (v : list Z) (s : receiver) : receiver :=
  Receiver (g_last_event s) (g_byte_cnt s) (g_virtual_cnt s)
    (g_is_edge_falling s) (g_is_event_buffer_full s) (g_event_buffer_index s)
    v (g_event_buffer s) (TCCR1B s) (bit_writes s) (decode_runs s).

Definition set_event_buffer (v : list Z) (s : receiver) : receiver :=
  Receiver (g_last_event s) (g_byte_cnt s) (g_virtual_cnt s)
    (g_is_edge_falling s) (g_is_event_buffer_full s) (g_event_buffer_index s)
    (g_data_buffer s) v (TCCR1B s) (bit_writes s) (decode_runs s).

Definition set_TCCR1B (v : Z) (s : receiver) : receiver :=
  Receiver (g_last_event s) (g_byte_cnt s) (g_virtual_cnt s)
    (g_is_edge_falling s) (g_is_event_buffer_full s) (g_event_buffer_index s)
    (g_data_buffer s) (g_event_buffer s) v (bit_writes s) (decode_runs s).

Definition log_bit_write (w : Z * Z * bool) (s : receiver) : receiver :=
  Receiver (g_last_event s) (g_byte_cnt s) (g_virtual_cnt s)
    (g_is_edge_falling s) (g_is_event_buffer_full s) (g_event_buffer_index s)
    (g_data_buffer s) (g_event_buffer s) (TCCR1B s) (w :: bit_writes s)
    (decode_runs s).

Definition log_decode_run (s : receiver) : receiver :=
  Receiver (g_last_event s) (g_byte_cnt s) (g_virtual_cnt s)
    (g_is_edge_falling s) (g_is_event_buffer_full s) (g_event_buffer_index s)
    (g_data_buffer s) (g_event_buffer s) (TCCR1B s) (bit_writes s)
    (S (decode_runs s)).

(** The machine before [IR_Reciever_init]: objects of static storage
    duration are zero, and so is the timer control register after reset. *)
Definition power_on : receiver :=
  Receiver 0 0 0 false false 0
    (replicate (Z.to_nat DATA_BUFFER_SIZE) 0)
    (replicate (Z.to_nat EVENT_BUFFER_SIZE) 0)
    0 [] 0%nat.

(** ** Receiver: foreground code *)

(** [TIMER1_init], restricted to [TCCR1B], the one register the rest of
    the code touches again. *)
Definition TIMER1_init (s : receiver) : receiver :=
  let s1 := set_TCCR1B (_set_two_bits (TCCR1B s) ICNC1 CS10) s in
  set_TCCR1B (_clear_bit (TCCR1B s1) ICES1) s1.

Definition IR_Reciever_init (s : receiver) : receiver :=
  let s := set_byte_cnt 0 s in
  let s := set_last_event 0 s in
  let s := set_virtual_cnt 0 s in
  let s := set_event_buffer_index 0 s in
  let s := set_is_edge_falling true s in
  let s := set_is_event_buffer_full false s in
  TIMER1_init s.

Definition IR_get_data (s : receiver) : list Z := g_data_buffer s.

(** [write_bit]: sets or clears one bit of [g_data_buffer[g_byte_cnt]].
    The index is not checked by the code; the model records it in
    [bit_writes] and updates the array when the index lies inside it. *)
Definition write_bit (bit : Z) (logic_level : bool) (s : receiver) : receiver :=
  let k := g_byte_cnt s in
  let byte := rd (g_data_buffer s) k in
  let byte' := if logic_level then _set_bit byte bit else _clear_bit byte bit in
  log_bit_write (k, bit, logic_level) (set_data_buffer (wr (g_data_buffer s) k byte') s).

(** [find_bit_position]: the [switch] over the eight bit positions; any
    other value falls through without effect. *)
Definition find_bit_position (bit_position : Z) (logic_level : bool)
    (s : receiver) : receiver :=
  if bit_position =? FIRST_BIT_POS then write_bit 0 logic_level s
  else if bit_position =? SECOND_BIT_POS then write_bit 1 logic_level s
  else if bit_position =? THIRD_BIT_POS then write_bit 2 logic_level s
  else if bit_position =? FOURTH_BIT_POS then write_bit 3 logic_level s
  else if bit_position =? FIFTH_BIT_POS then write_bit 4 logic_level s
  else if bit_position =? SIXTH_BIT_POS then write_bit 5 logic_level s
  else if bit_position =? SEVENTH_BIT_POS then write_bit 6 logic_level s
  else if bit_position =? EIGHTH_BIT_POS then write_bit 7 logic_level s
  else s.

(** The locals of [update_data_buffer] that live across iterations. *)
Record locals := Locals {
  event_cnt : Z;
  quater_of_bit : Z;
  state : bool
}.

(** [uint16_t pulse_width = (uint16_t)g_event_buffer[i] - g_last_event]:
    the cast truncates the timestamp, the subtraction is done in 64 bits,
    the assignment truncates again. *)
Definition pulse_width_of (event last_event : Z) : Z :=
  u16 (u64 (u16 event - last_event)).

(** The [if / else if / else if] chain that assigns [quater_of_bit]. *)
Definition classify (pulse_width quater : Z) : Z :=
  if (20 <? pulse_width) && (pulse_width <? 100) then 1
  else if (120 <? pulse_width) && (pulse_width <? 200) then 3
  else if (220 <? pulse_width) && (pulse_width <? 300) then 5
  else quater.

(** One turn of the inner loop over [j]:
    [if (event_cnt == EIGHTH_BIT_POS) find_bit_position(event_cnt, state);
     event_cnt++;] *)
Definition quarter_step (ls : locals * receiver) : locals * receiver :=
  let l := ls.1 in
  let s := ls.2 in
  let s' := if event_cnt l =? EIGHTH_BIT_POS
            then find_bit_position (event_cnt l) (state l) s else s in
  (Locals (u8 (event_cnt l + 1)) (quater_of_bit l) (state l), s').

(** One turn of the outer loop over [i]. *)
Definition edge_step (ls : locals * receiver) (i : Z) : locals * receiver :=
  let l := ls.1 in
  let s := ls.2 in
  let ls' :=
    if 0 <? i then
      let pulse_width := pulse_width_of (rd (g_event_buffer s) i) (g_last_event s) in
      let q := classify pulse_width (quater_of_bit l) in
      let r := Nat.iter (Z.to_nat q) quarter_step
                 (Locals (event_cnt l) q (state l), s) in
      (Locals (event_cnt r.1) (quater_of_bit r.1) (negb (state r.1)), r.2)
    else (l, s) in
  (ls'.1, set_last_event (rd (g_event_buffer ls'.2) i) ls'.2).

Definition update_data_buffer (s : receiver) : receiver :=
  log_decode_run
    (foldl edge_step (Locals 0 0 true, s) (seqZ 0 EVENT_BUFFER_SIZE)).2.

(** [IR_is_data_available] returns the status and the new state. *)
Definition IR_is_data_available (s : receiver) : bool * receiver :=
  let s1 := if g_is_event_buffer_full s
            then set_is_event_buffer_full false (update_data_buffer s)
            else s in
  if g_byte_cnt s1 =? DATA_BUFFER_SIZE
  then (true, set_byte_cnt 0 s1)
  else (false, s1).

(** ** Receiver: interrupt handlers *)

Definition ISR_TIMER1_OVF (s : receiver) : receiver :=
  set_virtual_cnt (u64 (g_virtual_cnt s + 65536)) s.

(** [uint16_t timer_value = ((ICR1H << 8) | ICR1L)], where [ICR1H] and
    [ICR1L] are the two 8-bit halves of the capture register. *)
Definition timer_value_of (ICR1H ICR1L : Z) : Z :=
  u16 (Z.lor (Z.shiftl (u8 ICR1H) 8) (u8 ICR1L)).

(** [ISR (TIMER1_CAPT_vect)], given what the handler reads from the
    capture register. *)
Definition ISR_TIMER1_CAPT (ICR1H ICR1L : Z) (s : receiver) : receiver :=
  let timer_value := timer_value_of ICR1H ICR1L in
  let s := if g_is_edge_falling s
           then set_TCCR1B (_set_bit (TCCR1B s) ICES1) s
           else set_TCCR1B (_clear_bit (TCCR1B s) ICES1) s in
  let s := set_is_edge_falling (negb (g_is_edge_falling s)) s in
  let s := set_event_buffer
             (wr (g_event_buffer s) (g_event_buffer_index s)
                 (u64 (g_virtual_cnt s + timer_value))) s in
  let s := set_event_buffer_index (u8 (g_event_buffer_index s + 1)) s in
  if g_event_buffer_index s =? EVENT_BUFFER_SIZE then
    let s := set_byte_cnt (u8 (g_byte_cnt s + 1)) s in
    let s := set_event_buffer_index 0 s in
    set_is_event_buffer_full true s
  else s.

(** ** Receiver: runs

    What can happen to the receiver after initialisation: the timer
    overflows, an edge is captured, or the foreground loop of [main] polls
    [IR_is_data_available].  Each handler and each poll runs to completion
    before the next event; an interrupt in the middle of a poll is outside
    this model. *)
Inductive event :=
  | Overflow
  | Capture (ICR1H ICR1L : Z)
  | Poll.

Definition step (s : receiver) (e : event) : receiver :=
  match e with
  | Overflow => ISR_TIMER1_OVF s
  | Capture h l => ISR_TIMER1_CAPT h l s
  | Poll => (IR_is_data_available s).2
  end.

Definition run (s : receiver) (es : list event) : receiver := foldl step s es.

Definition init : receiver := IR_Reciever_init power_on.

(** Number of capture interrupts, and of overflow interrupts, in a run. *)
Fixpoint captures (es : list event) : Z :=
  match es with
  | [] => 0
  | Capture _ _ :: es => 1 + captures es
  | _ :: es => captures es
  end.

Fixpoint overflows (es : list event) : Z :=
  match es with
  | [] => 0
  | Overflow :: es => 1 + overflows es
  | _ :: es => overflows es
  end.

(** ** Receiver: test stimuli *)

(** The capture interrupt raised when the 16-bit timer reads [t]. *)
Definition capture_at (t : Z) : event :=
  Capture (Z.shiftr (u16 t) 8) (Z.land (u16 t) 255).

(** Timestamps of the edges that start at [t] and are [widths] apart. *)
Fixpoint edges (t : Z) (widths : list Z) : list Z :=
  t :: match widths with
       | [] => []
       | w :: ws => edges (t + w) ws
       end.

(** Nominal widths, in timer ticks, of one, three and five quarter-bits. *)
Definition W1 : Z := 50.
Definition W3 : Z := 150.
Definition W5 : Z := 250.

(** A window for the byte [0b10110010]: the 29 intervals alternate between
    level 1 and level 0, starting with 1, and cover the quarter-bit
    counts 0-4, 5-9, 10-14, 15-19, 20-24, 25-29, 30-32, 33, 34-36, 37-39,
    40, 41-43, 44-48, 49-51 and then one count each.  Counts 23, 31, 35
    and 47 fall in intervals of level 1, counts 27, 39, 43 and 51 in
    intervals of level 0, each together with the count before it. *)
Definition widths_178 : list Z :=
  [W5; W5; W5; W5; W5; W5; W3; W1; W3; W3; W1; W3; W5; W3]
  ++ replicate 15 W1.

Definition window_178 : list event := capture_at <$> edges 1000 widths_178.

(** A window of 29 intervals of three quarter-bits each.  The intervals
    cover the counts 0-2, 3-5, ... and alternate between level 1 and level
    0: counts 31 and 43 fall in intervals of level 1, the other six
    offsets in intervals of level 0. *)
Definition widths_36 : list Z := replicate 29 W3.

Definition window_36 : list event := capture_at <$> edges 500 widths_36.

(** A full reception in the rhythm of [main]: twelve windows, the
    foreground polling after each of the first eleven; and the same with
    the twelfth poll added. *)
Definition polled_window (k : Z) : list event :=
  (capture_at <$> edges (4500 * k) widths_36) ++ [Poll].

Definition twelve_windows_captured : list event :=
  mjoin (polled_window <$> seqZ 0 11) ++ (capture_at <$> edges 49500 widths_36).

Definition twelve_windows_polled : list event :=
  twelve_windows_captured ++ [Poll].

(** ** The decoder as the specification words it

    A second decoder, written from the specification and not from the
    code: the running count is compared with all eight offsets, and the
    byte under construction starts at 0.  It is used only to say which
    byte a window stands for. *)
Definition spec_offsets : list (Z * Z) :=
  [(23, 7); (27, 6); (31, 5); (35, 4); (39, 3); (43, 2); (47, 1); (51, 0)].

Definition spec_bit_of_offset (c : Z) : option Z :=
  (fun r => r.2.2) <$> list_find (fun p => c = p.1) spec_offsets.

Record spec_decoder := SpecDecoder {
  spec_cnt : Z;
  spec_quarters : Z;
  spec_state : bool;
  spec_byte : Z
}.

Definition spec_quarter (d : spec_decoder) : spec_decoder :=
  let byte :=
    match spec_bit_of_offset (spec_cnt d) with
    | Some b => if spec_state d then Z.setbit (spec_byte d) b
                else Z.clearbit (spec_byte d) b
    | None => spec_byte d
    end in
  SpecDecoder (spec_cnt d + 1) (spec_quarters d) (spec_state d) byte.

Definition spec_width_class (w prev : Z) : Z :=
  if decide (20 < w < 100) then 1
  else if decide (120 < w < 200) then 3
  else if decide (220 < w < 300) then 5
  else prev.

Definition spec_interval (d : spec_decoder) (w : Z) : spec_decoder :=
  let q := spec_width_class w (spec_quarters d) in
  let d' := Nat.iter (Z.to_nat q)
              spec_quarter (SpecDecoder (spec_cnt d) q (spec_state d) (spec_byte d)) in
  SpecDecoder (spec_cnt d') q (negb (spec_state d')) (spec_byte d').

(** The byte a window of timestamps stands for. *)
Definition spec_decode (window : list Z) : Z :=
  match window with
  | [] => 0
  | t0 :: rest =>
      spec_byte
        (foldl spec_interval (SpecDecoder 0 0 true 0)
               (zip_with Z.sub rest (t0 :: rest)))
  end.

(** ** Emitter: constants *)

(** [IR_LED] is [PD4], bit 4 of port D. *)
Definition IR_LED : Z := 4.

Definition CYCLES : Z := 8.
Definition PERIOD : Q := 30.3.
Definition HALF_BIT_TIME : Q := 427.25.
Definition STOP_TIME : Q := 2.84.
Definition START_TIME : Q := 31.95.

(** Modelled from the spec: the macro [CYCLES_FREQUENCY], which
    [LOW_LEVEL1_TIME] multiplies by [CYCLES], is defined in no file of the
    repository.  The specification derives the shortest low level as the
    half-bit time minus eight burst periods of 30.3 microseconds. *)
Definition CYCLES_FREQUENCY : Q := 30.3.

(** The four macros, expanded as the preprocessor expands them: the
    replacement lists are not parenthesised, and the sums associate to the
    left. *)
Definition LOW_LEVEL1_TIME : Q :=
  (HALF_BIT_TIME - (inject_Z CYCLES * CYCLES_FREQUENCY))%Q.
Definition LOW_LEVEL2_TIME : Q := HALF_BIT_TIME.
Definition LOW_LEVEL3_TIME : Q :=
  (HALF_BIT_TIME - (inject_Z CYCLES * CYCLES_FREQUENCY) + HALF_BIT_TIME)%Q.
Definition LOW_LEVEL4_TIME : Q :=
  (HALF_BIT_TIME - (inject_Z CYCLES * CYCLES_FREQUENCY)
   + (2 * HALF_BIT_TIME))%Q.

Inductive Pulse_Level :=
  | HIGH_LEVEL
  | LOW_LEVEL1
  | LOW_LEVEL2
  | LOW_LEVEL3
  | LOW_LEVEL4.

(** [enum Commands]; [IR_send_request] takes the command as a [uint8_t]. *)
Definition GET_COUNTER : Z := 0.
Definition CLEAN_MEMORY : Z := 1.

(** ** Emitter: tables *)

Definition g_ascii_ESC : list Pulse_Level :=
  [LOW_LEVEL2; HIGH_LEVEL;
   LOW_LEVEL1; HIGH_LEVEL;
   LOW_LEVEL4; HIGH_LEVEL;
   LOW_LEVEL1; HIGH_LEVEL;
   LOW_LEVEL4; HIGH_LEVEL;
   LOW_LEVEL3; HIGH_LEVEL;
   LOW_LEVEL3; HIGH_LEVEL;
   LOW_LEVEL1; HIGH_LEVEL;
   LOW_LEVEL3; HIGH_LEVEL;
   LOW_LEVEL4; HIGH_LEVEL;
   LOW_LEVEL1; HIGH_LEVEL;
   LOW_LEVEL3; HIGH_LEVEL;
   LOW_LEVEL3].

Definition g_ascii_DP : list Pulse_Level :=
  [LOW_LEVEL2; HIGH_LEVEL;
   LOW_LEVEL1; HIGH_LEVEL;
   LOW_LEVEL4; HIGH_LEVEL;
   LOW_LEVEL1; HIGH_LEVEL;
   LOW_LEVEL3; HIGH_LEVEL;
   LOW_LEVEL3; HIGH_LEVEL;
   LOW_LEVEL3; HIGH_LEVEL;
   LOW_LEVEL3; HIGH_LEVEL;
   LOW_LEVEL3; HIGH_LEVEL;
   LOW_LEVEL4; HIGH_LEVEL;
   LOW_LEVEL3; HIGH_LEVEL;
   LOW_LEVEL1; HIGH_LEVEL;
   LOW_LEVEL3].

Definition g_ascii_Y : list Pulse_Level :=
  [HIGH_LEVEL; LOW_LEVEL3;
   HIGH_LEVEL; LOW_LEVEL3;
   HIGH_LEVEL; LOW_LEVEL4;
   HIGH_LEVEL; LOW_LEVEL3;
   HIGH_LEVEL; LOW_LEVEL1;
   HIGH_LEVEL; LOW_LEVEL4;
   HIGH_LEVEL; LOW_LEVEL1;
   HIGH_LEVEL; LOW_LEVEL3;
   HIGH_LEVEL; LOW_LEVEL4;
   HIGH_LEVEL; LOW_LEVEL3;
   HIGH_LEVEL; LOW_LEVEL1;
   HIGH_LEVEL; LOW_LEVEL3].

Definition g_ascii_P : list Pulse_Level :=
  [LOW_LEVEL2; HIGH_LEVEL;
   LOW_LEVEL1; HIGH_LEVEL;
   LOW_LEVEL4; HIGH_LEVEL;
   LOW_LEVEL3; HIGH_LEVEL;
   LOW_LEVEL3; HIGH_LEVEL;
   LOW_LEVEL1; HIGH_LEVEL;
   LOW_LEVEL4; HIGH_LEVEL;
   LOW_LEVEL1; HIGH_LEVEL;
   LOW_LEVEL4; HIGH_LEVEL;
   LOW_LEVEL3; HIGH_LEVEL;
   LOW_LEVEL3; HIGH_LEVEL;
   LOW_LEVEL3; HIGH_LEVEL;
   LOW_LEVEL1].

Definition g_ascii_3 : list Pulse_Level :=
  [LOW_LEVEL2; HIGH_LEVEL;
   LOW_LEVEL3; HIGH_LEVEL;
   LOW_LEVEL3; HIGH_LEVEL;
   LOW_LEVEL3; HIGH_LEVEL;
   LOW_LEVEL3; HIGH_LEVEL;
   LOW_LEVEL3; HIGH_LEVEL;
   LOW_LEVEL1; HIGH_LEVEL;
   LOW_LEVEL3; HIGH_LEVEL;
   LOW_LEVEL4; HIGH_LEVEL;
   LOW_LEVEL3; HIGH_LEVEL;
   LOW_LEVEL1; HIGH_LEVEL;
   LOW_LEVEL3; HIGH_LEVEL;
   LOW_LEVEL3].

Definition g_ascii_M : list Pulse_Level :=
  [LOW_LEVEL2; HIGH_LEVEL;
   LOW_LEVEL3; HIGH_LEVEL;
   LOW_LEVEL1; HIGH_LEVEL;
   LOW_LEVEL4; HIGH_LEVEL;
   LOW_LEVEL3; HIGH_LEVEL;
   LOW_LEVEL1; HIGH_LEVEL;
   LOW_LEVEL4; HIGH_LEVEL;
   LOW_LEVEL3; HIGH_LEVEL;
   LOW_LEVEL1; HIGH_LEVEL;
   LOW_LEVEL3; HIGH_LEVEL;
   LOW_LEVEL4; HIGH_LEVEL;
   LOW_LEVEL1; HIGH_LEVEL;
   LOW_LEVEL3].

Definition g_ascii_I : list Pulse_Level :=
  [LOW_LEVEL2; HIGH_LEVEL;
   LOW_LEVEL1; HIGH_LEVEL;
   LOW_LEVEL4; HIGH_LEVEL;
   LOW_LEVEL3; HIGH_LEVEL;
   LOW_LEVEL3; HIGH_LEVEL;
   LOW_LEVEL1; HIGH_LEVEL;
   LOW_LEVEL4; HIGH_LEVEL;
   LOW_LEVEL3; HIGH_LEVEL;
   LOW_LEVEL1; HIGH_LEVEL;
   LOW_LEVEL4; HIGH_LEVEL;
   LOW_LEVEL3; HIGH_LEVEL;
   LOW_LEVEL1; HIGH_LEVEL;
   LOW_LEVEL3].

Definition g_ascii_O : list Pulse_Level :=
  [LOW_LEVEL2; HIGH_LEVEL;
   LOW_LEVEL1; HIGH_LEVEL;
   LOW_LEVEL4; HIGH_LEVEL;
   LOW_LEVEL3; HIGH_LEVEL;
   LOW_LEVEL3; HIGH_LEVEL;
   LOW_LEVEL1; HIGH_LEVEL;
   LOW_LEVEL4; HIGH_LEVEL;
   LOW_LEVEL3; HIGH_LEVEL;
   LOW_LEVEL1; HIGH_LEVEL;
   LOW_LEVEL3; HIGH_LEVEL;
   LOW_LEVEL3; HIGH_LEVEL;
   LOW_LEVEL3; HIGH_LEVEL;
   LOW_LEVEL3].

Definition g_ascii_F : list Pulse_Level :=
  [HIGH_LEVEL; LOW_LEVEL3;
   HIGH_LEVEL; LOW_LEVEL4;
   HIGH_LEVEL; LOW_LEVEL1;
   HIGH_LEVEL; LOW_LEVEL4;
   HIGH_LEVEL; LOW_LEVEL1;
   HIGH_LEVEL; LOW_LEVEL4;
   HIGH_LEVEL; LOW_LEVEL3;
   HIGH_LEVEL; LOW_LEVEL3;
   HIGH_LEVEL; LOW_LEVEL1;
   HIGH_LEVEL; LOW_LEVEL3;
   HIGH_LEVEL; LOW_LEVEL4;
   HIGH_LEVEL; LOW_LEVEL1].

Definition g_ascii_FF : list Pulse_Level :=
  [HIGH_LEVEL; LOW_LEVEL3;
   HIGH_LEVEL; LOW_LEVEL3;
   HIGH_LEVEL; LOW_LEVEL3;
   HIGH_LEVEL; LOW_LEVEL4;
   HIGH_LEVEL; LOW_LEVEL3;
   HIGH_LEVEL; LOW_LEVEL3;
   HIGH_LEVEL; LOW_LEVEL3;
   HIGH_LEVEL; LOW_LEVEL1;
   HIGH_LEVEL; LOW_LEVEL3;
   HIGH_LEVEL; LOW_LEVEL4;
   HIGH_LEVEL; LOW_LEVEL3;
   HIGH_LEVEL; LOW_LEVEL1].

Definition g_ascii_EOT : list Pulse_Level :=
  [LOW_LEVEL2; HIGH_LEVEL;
   LOW_LEVEL1; HIGH_LEVEL;
   LOW_LEVEL3; HIGH_LEVEL;
   LOW_LEVEL4; HIGH_LEVEL;
   LOW_LEVEL3; HIGH_LEVEL;
   LOW_LEVEL3; HIGH_LEVEL;
   LOW_LEVEL3; HIGH_LEVEL;
   LOW_LEVEL3; HIGH_LEVEL;
   LOW_LEVEL3; HIGH_LEVEL;
   LOW_LEVEL1; HIGH_LEVEL;
   LOW_LEVEL4; HIGH_LEVEL;
   LOW_LEVEL3; HIGH_LEVEL;
   LOW_LEVEL1].

Definition g_ascii_C : list Pulse_Level :=
  [HIGH_LEVEL; LOW_LEVEL4;
   HIGH_LEVEL; LOW_LEVEL3;
   HIGH_LEVEL; LOW_LEVEL3;
   HIGH_LEVEL; LOW_LEVEL3;
   HIGH_LEVEL; LOW_LEVEL1;
   HIGH_LEVEL; LOW_LEVEL4;
   HIGH_LEVEL; LOW_LEVEL3;
   HIGH_LEVEL; LOW_LEVEL3;
   HIGH_LEVEL; LOW_LEVEL3;
   HIGH_LEVEL; LOW_LEVEL1;
   HIGH_LEVEL; LOW_LEVEL3;
   HIGH_LEVEL; LOW_LEVEL3].

Definition g_ascii_N : list Pulse_Level :=
  [LOW_LEVEL2; HIGH_LEVEL;
   LOW_LEVEL1; HIGH_LEVEL;
   LOW_LEVEL4; HIGH_LEVEL;
   LOW_LEVEL3; HIGH_LEVEL;
   LOW_LEVEL3; HIGH_LEVEL;
   LOW_LEVEL1; HIGH_LEVEL;
   LOW_LEVEL4; HIGH_LEVEL;
   LOW_LEVEL3; HIGH_LEVEL;
   LOW_LEVEL1; HIGH_LEVEL;
   LOW_LEVEL3; HIGH_LEVEL;
   LOW_LEVEL3; HIGH_LEVEL;
   LOW_LEVEL4; HIGH_LEVEL;
   LOW_LEVEL1].

Definition g_ascii_G : list Pulse_Level :=
  [HIGH_LEVEL; LOW_LEVEL3;
   HIGH_LEVEL; LOW_LEVEL3;
   HIGH_LEVEL; LOW_LEVEL4;
   HIGH_LEVEL; LOW_LEVEL3;
   HIGH_LEVEL; LOW_LEVEL1;
   HIGH_LEVEL; LOW_LEVEL4;
   HIGH_LEVEL; LOW_LEVEL3;
   HIGH_LEVEL; LOW_LEVEL3;
   HIGH_LEVEL; LOW_LEVEL1;
   HIGH_LEVEL; LOW_LEVEL3;
   HIGH_LEVEL; LOW_LEVEL3;
   HIGH_LEVEL; LOW_LEVEL3].

Definition g_ascii_DEL : list Pulse_Level :=
  [LOW_LEVEL2; HIGH_LEVEL;
   LOW_LEVEL3; HIGH_LEVEL;
   LOW_LEVEL3; HIGH_LEVEL;
   LOW_LEVEL1; HIGH_LEVEL;
   LOW_LEVEL4; HIGH_LEVEL;
   LOW_LEVEL1; HIGH_LEVEL;
   LOW_LEVEL3; HIGH_LEVEL;
   LOW_LEVEL3; HIGH_LEVEL;
   LOW_LEVEL3; HIGH_LEVEL;
   LOW_LEVEL3; HIGH_LEVEL;
   LOW_LEVEL3; HIGH_LEVEL;
   LOW_LEVEL3; HIGH_LEVEL;
   LOW_LEVEL3].

Definition g_half_start_bits : list Pulse_Level :=
  [HIGH_LEVEL; LOW_LEVEL1;
   HIGH_LEVEL; LOW_LEVEL1;
   HIGH_LEVEL; LOW_LEVEL1].

(** [sizeof] of an array of [uint8_t]. *)
Definition sizeof {A} (a : list A) : Z := Z.of_nat (length a).

Definition g_start_cmd : list (list Pulse_Level) := [g_ascii_ESC; g_ascii_DP].
Definition g_stop_cmd : list (list Pulse_Level) := [g_ascii_FF; g_ascii_EOT].
Definition g_get_couter_cmd : list (list Pulse_Level) :=
  [g_ascii_Y; g_ascii_P; g_ascii_3; g_ascii_M; g_ascii_I; g_ascii_O; g_ascii_F].
Definition g_clean_memory_cmd : list (list Pulse_Level) :=
  [g_ascii_C; g_ascii_N; g_ascii_F; g_ascii_G; g_ascii_DEL].

Definition g_start_cmd_len : list Z := [sizeof g_ascii_ESC; sizeof g_ascii_DP].
Definition g_stop_cmd_len : list Z := [sizeof g_ascii_FF; sizeof g_ascii_EOT].
Definition g_get_counter_cmd_len : list Z :=
  [sizeof g_ascii_Y; sizeof g_ascii_P; sizeof g_ascii_3; sizeof g_ascii_M;
   sizeof g_ascii_I; sizeof g_ascii_O; sizeof g_ascii_F].
Definition g_clean_memory_cmd_len : list Z :=
  [sizeof g_ascii_C; sizeof g_ascii_N; sizeof g_ascii_F; sizeof g_ascii_G;
   sizeof g_ascii_DEL].

(** ** Emitter: state and output

    The emitter acts on the world through pin PD4 and through the time it
    lets pass.  [line] is the history of both, oldest first: the level of
    the pin after each write to [PORTD], and each busy-wait with its
    argument.

    [frame_transmission] reads the preamble with [*half_start_bits++] and
    counts [sizeof(half_start_bits)] turns.  The name is not a local of
    the function and is declared in no file; its uses settle what it is.
    The post-increment needs a modifiable pointer to [uint8_t], so it is
    not the array [g_half_start_bits]; not being local, the pointer keeps
    its value from one frame to the next and from one call to the next,
    and nothing in the file sets it back.  [half_start_bits] is that
    pointer, as an offset in bytes from the first element of
    [g_half_start_bits].  What it reads once it has left the six bytes of
    the table is other memory, which the source does not fix:
    [outside_table] gives the byte found at each such offset. *)
Inductive signal :=
  | Led (on : bool)
  | Delay_us (t : Q)
  | Delay_ms (t : Q).

Record emitter := Emitter {
  DDRD : Z;
  PORTD : Z;
  line : list signal;
  half_start_bits : Z;
  outside_table : Z -> Z
}.

Definition write_PORTD (v : Z) (s : emitter) : emitter :=
  Emitter (DDRD s) v (line s ++ [Led (Z.testbit v IR_LED)])
    (half_start_bits s) (outside_table s).

Definition write_DDRD (v : Z) (s : emitter) : emitter :=
  Emitter v (PORTD s) (line s) (half_start_bits s) (outside_table s).

Definition _delay_us (t : Q) (s : emitter) : emitter :=
  Emitter (DDRD s) (PORTD s) (line s ++ [Delay_us t])
    (half_start_bits s) (outside_table s).

Definition _delay_ms (t : Q) (s : emitter) : emitter :=
  Emitter (DDRD s) (PORTD s) (line s ++ [Delay_ms t])
    (half_start_bits s) (outside_table s).

Definition set_half_start_bits (p : Z) (s : emitter) : emitter :=
  Emitter (DDRD s) (PORTD s) (line s) p (outside_table s).

(** Modelled from the spec: where [half_start_bits] points when the
    program starts is part of its missing declaration.  The preamble of
    the specification, a burst and the short low level three times over,
    is the table [g_half_start_bits]: the pointer is taken to start at the
    first element of that table.  The registers are 0 after reset. *)
Definition emitter_power_on (outside : Z -> Z) : emitter :=
  Emitter 0 0 [] 0 outside.

(** [sizeof(half_start_bits)]: a pointer to data is two bytes wide on the
    AVR. *)
Definition sizeof_half_start_bits : Z := 2.

(** Modelled from the spec: [_setBit], with which the emitter switches
    its pin on, is defined in no header of the repository; the receiver's
    [bitwiseop.h] has [_set_bit].  The output line of the specification is
    set to a level: the macro is taken to set the named bit of the port as
    [_set_bit] does. *)
Definition _setBit (byte bit : Z) : Z := _set_bit byte bit.

(** Modelled from the spec: [_clearBit], with which the emitter switches
    its pin off, is defined in no header of the repository; the receiver's
    [bitwiseop.h] has [_clear_bit].  The output line of the specification
    is cleared: the macro is taken to clear the named bit of the port as
    [_clear_bit] does. *)
Definition _clearBit (byte bit : Z) : Z := _clear_bit byte bit.

(** ** Emitter: code *)

Definition IR_Emitter_init (s : emitter) : emitter :=
  let s := write_DDRD (_setBit (DDRD s) IR_LED) s in
  write_PORTD (_clearBit (PORTD s) IR_LED) s.

(** One turn of the loop over [cycles] in the [HIGH_LEVEL] case. *)
Definition carrier_cycle (s : emitter) : emitter :=
  let s := write_PORTD (_setBit (PORTD s) IR_LED) s in
  let s := _delay_us (PERIOD / 2) s in
  let s := write_PORTD (_clearBit (PORTD s) IR_LED) s in
  _delay_us (PERIOD / 2) s.

Definition ir_led_transmission (level : Pulse_Level) (s : emitter) : emitter :=
  match level with
  | HIGH_LEVEL => Nat.iter (Z.to_nat CYCLES) carrier_cycle s
  | LOW_LEVEL1 => _delay_us LOW_LEVEL1_TIME s
  | LOW_LEVEL2 => _delay_us LOW_LEVEL2_TIME s
  | LOW_LEVEL3 => _delay_us LOW_LEVEL3_TIME s
  | LOW_LEVEL4 => _delay_us LOW_LEVEL4_TIME s
  end.

(** The enumerators of [enum Pulse_Level] as the [uint8_t] values kept in
    the tables, and back.  [ir_led_transmission] takes a [uint8_t] and its
    [switch] has no [default]: a byte that is no enumerator does nothing. *)
Definition level_code (level : Pulse_Level) : Z :=
  match level with
  | HIGH_LEVEL => 0
  | LOW_LEVEL1 => 1
  | LOW_LEVEL2 => 2
  | LOW_LEVEL3 => 3
  | LOW_LEVEL4 => 4
  end.

Definition level_of_code (byte : Z) : option Pulse_Level :=
  if byte =? 0 then Some HIGH_LEVEL
  else if byte =? 1 then Some LOW_LEVEL1
  else if byte =? 2 then Some LOW_LEVEL2
  else if byte =? 3 then Some LOW_LEVEL3
  else if byte =? 4 then Some LOW_LEVEL4
  else None.

Definition ir_led_transmission_byte (byte : Z) (s : emitter) : emitter :=
  match level_of_code byte with
  | Some level => ir_led_transmission level s
  | None => s
  end.

(** Element [i] of a level table. *)
Definition level_at (a : list Pulse_Level) (i : Z) : Pulse_Level :=
  nth (Z.to_nat i) a HIGH_LEVEL.

(** The byte at offset [p] from the first element of
    [g_half_start_bits]: an entry of the table, or what lies outside it. *)
Definition byte_at (outside : Z -> Z) (p : Z) : Z :=
  if (0 <=? p) && (p <? sizeof g_half_start_bits)
  then level_code (level_at g_half_start_bits p)
  else outside p.

(** The call of [ir_led_transmission] on [*half_start_bits++]: the byte
    under the pointer is read, the pointer moves on by one, the byte is
    transmitted. *)
Definition half_start_turn (s : emitter) : emitter :=
  let byte := byte_at (outside_table s) (half_start_bits s) in
  let s := set_half_start_bits (half_start_bits s + 1) s in
  ir_led_transmission_byte byte s.

(** [frame_transmission]: [sizeof(half_start_bits)] bytes read through the
    pointer, [length] levels of [data_frame], and the inter-frame delay. *)
Definition frame_transmission (data_frame : list Pulse_Level) (length : Z)
    (s : emitter) : emitter :=
  let s := foldl (fun s _ => half_start_turn s) s (seqZ 0 sizeof_half_start_bits) in
  let s := foldl (fun s i => ir_led_transmission (level_at data_frame i) s)
             s (seqZ 0 length) in
  _delay_ms STOP_TIME s.

(** [command_transmission]; in the source the prototype line, ending in a
    semicolon, stands where the head of the definition should. *)
Definition command_transmission (frames : list (list Pulse_Level))
    (frames_length : list Z) (num_frames : Z) (s : emitter) : emitter :=
  foldl (fun s i => frame_transmission (nth (Z.to_nat i) frames [])
                      (rd frames_length i) s)
    s (seqZ 0 num_frames).

(** [IR_send_request]; the [GET_COUNTER] case names its length table
    [g_get_couter_cmd_len], the table declared is [g_get_counter_cmd_len]. *)
Definition IR_send_request (command : Z) (s : emitter) : emitter :=
  let s := command_transmission g_start_cmd g_start_cmd_len
             (sizeof g_start_cmd_len) s in
  let s := _delay_ms START_TIME s in
  let s :=
    if command =? GET_COUNTER then
      command_transmission g_get_couter_cmd g_get_counter_cmd_len
        (sizeof g_get_counter_cmd_len) s
    else if command =? CLEAN_MEMORY then
      command_transmission g_clean_memory_cmd g_clean_memory_cmd_len
        (sizeof g_clean_memory_cmd_len) s
    else s in
  command_transmission g_stop_cmd g_stop_cmd_len (sizeof g_stop_cmd_len) s.

(** What a call [f] adds to the line when started in [s]. *)
Definition emitted_by (f : emitter -> emitter) (s : emitter) : list signal :=
  drop (length (line s)) (line (f s)).

(** ** Emitter: the transmission in protocol terms

    The vocabulary of the protocol description: a burst, four low levels,
    and the two gaps.  [render] gives what each of them is on the line. *)
Inductive mark :=
  | Burst
  | ShortLow
  | MediumLow
  | LongLow
  | LongerLow
  | FrameGap
  | StartupGap.

Definition render (m : mark) : list signal :=
  match m with
  | Burst =>
      mjoin (replicate 8 [Led true; Delay_us (30.3 / 2); Led false; Delay_us (30.3 / 2)])
  | ShortLow => [Delay_us LOW_LEVEL1_TIME]
  | MediumLow => [Delay_us LOW_LEVEL2_TIME]
  | LongLow => [Delay_us LOW_LEVEL3_TIME]
  | LongerLow => [Delay_us LOW_LEVEL4_TIME]
  | FrameGap => [Delay_ms 2.84]
  | StartupGap => [Delay_ms 31.95]
  end.

Definition mark_of_level (l : Pulse_Level) : mark :=
  match l with
  | HIGH_LEVEL => Burst
  | LOW_LEVEL1 => ShortLow
  | LOW_LEVEL2 => MediumLow
  | LOW_LEVEL3 => LongLow
  | LOW_LEVEL4 => LongerLow
  end.

(** A framed character: preamble, the character's levels, the gap. *)
Definition framed (character : list Pulse_Level) : list mark :=
  [Burst; ShortLow; Burst; ShortLow; Burst; ShortLow]
  ++ (mark_of_level <$> character) ++ [FrameGap].

Definition clean_memory_transmission : list mark :=
  framed g_ascii_ESC ++ framed g_ascii_DP ++ [StartupGap]
  ++ framed g_ascii_C ++ framed g_ascii_N ++ framed g_ascii_F
  ++ framed g_ascii_G ++ framed g_ascii_DEL
  ++ framed g_ascii_FF ++ framed g_ascii_EOT.

(** A character behind a single (burst, short low) pair, and behind
    none. *)
Definition framed_once (character : list Pulse_Level) : list mark :=
  [Burst; ShortLow] ++ (mark_of_level <$> character) ++ [FrameGap].

Definition unframed (character : list Pulse_Level) : list mark :=
  (mark_of_level <$> character) ++ [FrameGap].

(** ** UART: registers and device

    [uart.c] talks to the USART through the status register [UCSR0A] and
    the data register [UDR0].  Both are volatile: what a read returns is
    decided by the device.  [UCSR0A_reads] lists the values the status
    register shows on its next reads and [UDR0_rx] the bytes the data
    register delivers on its next reads; [UDR0_tx] collects the bytes
    written to the data register, oldest first.  A function returns [None]
    when the listed reads end before it is done: it is still waiting.

    Characters are kept as their byte value, 0 to 255.  The code compares
    them only with ASCII constants below 128, so the signedness of [char]
    makes no difference.  [int] is 16 bits wide on the AVR. *)
Definition u32 (z : Z) : Z := z mod 2 ^ 32.

Definition UDRE0 : Z := 5.
Definition RXC0 : Z := 7.

Definition _read_bit (byte bit : Z) : Z := Z.land byte (_BV bit).

Record uart := Uart {
  UCSR0A_reads : list Z;
  UDR0_rx : list Z;
  UDR0_tx : list Z
}.

(** [while (!_read_bit(UCSR0A, bit));] over the coming reads of the
    status register: what is left of them once the bit shows set. *)
Fixpoint wait_for (bit : Z) (reads : list Z) : option (list Z) :=
  match reads with
  | [] => None
  | r :: rest => if _read_bit r bit =? 0 then wait_for bit rest else Some rest
  end.

(** ** UART: code *)

Definition UART_write_char (c : Z) (u : uart) : option uart :=
  reads ← wait_for UDRE0 (UCSR0A_reads u);
  Some (Uart reads (UDR0_rx u) (UDR0_tx u ++ [u8 c])).

Definition UART_read_char (u : uart) : option (Z * uart) :=
  reads ← wait_for RXC0 (UCSR0A_reads u);
  match UDR0_rx u with
  | [] => None
  | c :: rx => Some (u8 c, Uart reads rx (UDR0_tx u))
  end.

(** The loop of [UART_read_string], entered with the character just read.
    Every turn reads one byte, so [length (UDR0_rx u)] turns are all the
    listed bytes allow; [turns] is that bound.  [buffer_size - 1] is
    computed in [unsigned int]. *)
Fixpoint read_string_loop (turns : nat) (character : Z) (buffer : list Z)
    (buffer_index buffer_size : Z) (u : uart) : option (list Z * Z * uart) :=
  if character =? 10 then Some (wr buffer buffer_index 0, buffer_index, u)
  else
    match turns with
    | O => None
    | S turns =>
        let stored :=
          if buffer_index <? u16 (buffer_size - 1)
          then (wr buffer buffer_index character, u16 (buffer_index + 1))
          else (buffer, buffer_index) in
        r ← UART_read_char u;
        read_string_loop turns r.1 stored.1 stored.2 buffer_size r.2
    end.

(** [UART_read_string]: the buffer after the call, the index at which the
    terminating NUL was stored, and the device. *)
Definition UART_read_string (buffer : list Z) (buffer_size : Z) (u : uart)
    : option (list Z * Z * uart) :=
  r ← UART_read_char u;
  read_string_loop (length (UDR0_rx r.2)) r.1 buffer 0 (u16 buffer_size) r.2.

(** [UART_write_string]; [ptr] is the memory from the pointer on, and
    running off it before a NUL is found is [None].  The source calls the
    character output [UART_writeChar]; the function the file defines and
    the header declares is [UART_write_char]. *)
Fixpoint UART_write_string (ptr : list Z) (u : uart) : option uart :=
  match ptr with
  | [] => None
  | c :: rest =>
      if c =? 0 then Some u
      else u ← UART_write_char c u; UART_write_string rest u
  end.

(** The loop of [UART_read_udec], with the same bound on its turns as
    [read_string_loop]. *)
Fixpoint read_udec_loop (turns : nat) (character number : Z) (u : uart)
    : option (Z * uart) :=
  if character =? 10 then Some (number, u)
  else
    match turns with
    | O => None
    | S turns =>
        let number :=
          if (48 <=? character) && (character <=? 57)
          then u32 (10 * number + (character - 48))
          else number in
        r ← UART_read_char u;
        read_udec_loop turns r.1 number r.2
    end.

Definition UART_read_udec (u : uart) : option (Z * uart) :=
  r ← UART_read_char u;
  read_udec_loop (length (UDR0_rx r.2)) r.1 0 r.2.

(** [UART_write_udec] calls itself on [n / 10]; [depth] bounds the nesting
    of the calls.  A 32-bit argument has at most ten decimal digits. *)
Fixpoint write_udec_calls (depth : nat) (n : Z) (u : uart) : option uart :=
  match depth with
  | O => None
  | S depth =>
      if 10 <=? n then
        u ← write_udec_calls depth (n / 10) u;
        UART_write_char (u32 (n mod 10 + 48)) u
      else UART_write_char (u32 (n + 48)) u
  end.

Definition UART_write_udec (n : Z) (u : uart) : option uart :=
  write_udec_calls 10 (u32 n) u.

(** The variable arguments of [UART_printf]: an [int], or a pointer to
    characters given as the memory it points to. *)
Inductive va_arg :=
  | VaInt (v : Z)
  | VaStr (mem : list Z).

(** The conversion performed by one [case] of the [switch], on the next
    argument.  Fetching an argument that is not there, or one of the other
    kind, has no defined result: [None]. *)
Definition printf_convert (conversion : Z) (arg : list va_arg) (u : uart)
    : option (list va_arg * uart) :=
  if conversion =? 99 then
    match arg with
    | VaInt v :: arg => u ← UART_write_char (u8 v) u; Some (arg, u)
    | _ => None
    end
  else if conversion =? 117 then
    match arg with
    | VaInt v :: arg => u ← UART_write_udec v u; Some (arg, u)
    | _ => None
    end
  else if conversion =? 115 then
    match arg with
    | VaStr mem :: arg => u ← UART_write_string mem u; Some (arg, u)
    | _ => None
    end
  else Some (arg, u).

(** [UART_printf]; [format] is the memory from the pointer on.  After a
    ['%'] the next character is consumed whatever it is, the terminating
    NUL included, and the loop goes on behind it. *)
Fixpoint UART_printf (format : list Z) (arg : list va_arg) (u : uart)
    : option uart :=
  match format with
  | [] => None
  | c :: rest =>
      if c =? 0 then Some u
      else if negb (c =? 37) then
        u ← UART_write_char c u; UART_printf rest arg u
      else
        match rest with
        | [] => None
        | conversion :: rest =>
            r ← printf_convert conversion arg u;
            UART_printf rest r.1 r.2
        end
  end.

(** ** Receiver: [main]

    The string literal ["Byte: %u\n"] with its terminator, and one turn of
    the [while (1)] loop. *)
Definition byte_format : list Z := [66; 121; 116; 101; 58; 32; 37; 117; 10; 0].

Definition print_data (data : list Z) (u : uart) : option uart :=
  foldl (fun o i => u ← o; UART_printf byte_format [VaInt (rd data i)] u)
    (Some u) (seqZ 0 12).

Definition receiver_main_turn (s : receiver) (u : uart)
    : option (receiver * uart) :=
  let r := IR_is_data_available s in
  if r.1 then u ← print_data (IR_get_data r.2) u; Some (r.2, u)
  else Some (r.2, u).

(** ** Predicates used in the statements *)

(** The capture interrupts for a list of timer readings, each a high and
    a low byte. *)
Definition captures_of (timer_values : list (Z * Z)) : list event :=
  (fun hl => Capture hl.1 hl.2) <$> timer_values.

(** The fields owned by the interrupt handlers are left alone. *)
Definition same_capture_state (s s' : receiver) : Prop :=
  g_byte_cnt s' = g_byte_cnt s
  /\ g_virtual_cnt s' = g_virtual_cnt s
  /\ g_is_edge_falling s' = g_is_edge_falling s
  /\ g_is_event_buffer_full s' = g_is_event_buffer_full s
  /\ g_event_buffer_index s' = g_event_buffer_index s
  /\ g_event_buffer s' = g_event_buffer s
  /\ TCCR1B s' = TCCR1B s.

(** Every decode runs the decoder once, and every write it performs goes
    to bit 7 of the slot selected by [g_byte_cnt]. *)
Definition writes_bit7_at_byte_cnt (s s' : receiver) : Prop :=
  g_byte_cnt s' = g_byte_cnt s
  /\ exists new, bit_writes s' = new ++ bit_writes s
       /\ Forall (fun w => w.1.1 = g_byte_cnt s /\ w.1.2 = 7) new.

(** What holds after every run from [init]. *)
Definition run_invariant (es : list event) (s : receiver) : Prop :=
  g_event_buffer_index s = captures es mod 30
  /\ length (g_event_buffer s) = 30%nat
  /\ Z.of_nat (decode_runs s) + Z.b2z (g_is_event_buffer_full s) <= captures es / 30
  /\ (captures es < 30 -> g_byte_cnt s = 0)
  /\ g_virtual_cnt s = u64 (65536 * overflows es).

(** Bytes whose low seven bits are clear. *)
Definition only_bit7 (s : receiver) : Prop :=
  Forall (fun b => b = 0 \/ b = 128) (g_data_buffer s).

(** [f] adds exactly [out] to the line, whatever the state it starts in,
    and leaves the preamble pointer where it is. *)
Definition emits (f : emitter -> emitter) (out : list signal) : Prop :=
  forall s,
    line (f s) = line s ++ out
    /\ half_start_bits (f s) = half_start_bits s
    /\ outside_table (f s) = outside_table s.

(** [f] adds to the line what [out] gives for the memory outside the
    table and the place of the preamble pointer on entry, and moves the
    pointer on by [reads]. *)
Definition emits_from (f : emitter -> emitter)
    (out : (Z -> Z) -> Z -> list signal) (reads : Z) : Prop :=
  forall s,
    line (f s) = line s ++ out (outside_table s) (half_start_bits s)
    /\ half_start_bits (f s) = half_start_bits s + reads
    /\ outside_table (f s) = outside_table s.

(** The signals of one carrier cycle, one level, one table, one frame,
    one command and one request, as the loops of the code produce them. *)
Definition cycle_signals : list signal :=
  [Led true; Delay_us (PERIOD / 2); Led false; Delay_us (PERIOD / 2)].

Definition level_signals (level : Pulse_Level) : list signal :=
  match level with
  | HIGH_LEVEL => mjoin (replicate (Z.to_nat CYCLES) cycle_signals)
  | LOW_LEVEL1 => [Delay_us LOW_LEVEL1_TIME]
  | LOW_LEVEL2 => [Delay_us LOW_LEVEL2_TIME]
  | LOW_LEVEL3 => [Delay_us LOW_LEVEL3_TIME]
  | LOW_LEVEL4 => [Delay_us LOW_LEVEL4_TIME]
  end.

Definition byte_signals (byte : Z) : list signal :=
  match level_of_code byte with
  | Some level => level_signals level
  | None => []
  end.

Definition table_signals (table : list Pulse_Level) (n : Z) : list signal :=
  mjoin ((fun i => level_signals (level_at table i)) <$> seqZ 0 n).

Definition preamble_signals (outside : Z -> Z) (p : Z) : list signal :=
  byte_signals (byte_at outside p) ++ byte_signals (byte_at outside (p + 1)).

Definition frame_signals (data_frame : list Pulse_Level) (length : Z)
    (outside : Z -> Z) (p : Z) : list signal :=
  preamble_signals outside p ++ table_signals data_frame length
  ++ [Delay_ms STOP_TIME].

Fixpoint frames_signals (frames : list (list Pulse_Level))
    (frames_length : list Z) (indices : list Z) (outside : Z -> Z) (p : Z)
    : list signal :=
  match indices with
  | [] => []
  | i :: indices =>
      frame_signals (nth (Z.to_nat i) frames []) (rd frames_length i) outside p
      ++ frames_signals frames frames_length indices outside
           (p + sizeof_half_start_bits)
  end.

Definition command_signals (frames : list (list Pulse_Level))
    (frames_length : list Z) (num_frames : Z) (outside : Z -> Z) (p : Z)
    : list signal :=
  frames_signals frames frames_length (seqZ 0 num_frames) outside p.

Definition payload_signals (command : Z) (outside : Z -> Z) (p : Z)
    : list signal :=
  if command =? GET_COUNTER then
    command_signals g_get_couter_cmd g_get_counter_cmd_len
      (sizeof g_get_counter_cmd_len) outside p
  else if command =? CLEAN_MEMORY then
    command_signals g_clean_memory_cmd g_clean_memory_cmd_len
      (sizeof g_clean_memory_cmd_len) outside p
  else [].

Definition payload_frames (command : Z) : Z :=
  if command =? GET_COUNTER then sizeof g_get_counter_cmd_len
  else if command =? CLEAN_MEMORY then sizeof g_clean_memory_cmd_len
  else 0.

(** Number of frames of a request: two of the start command, those of the
    command asked for, two of the stop command. *)
Definition request_frames (command : Z) : Z :=
  sizeof g_start_cmd_len + payload_frames command + sizeof g_stop_cmd_len.

Definition request_signals (command : Z) (outside : Z -> Z) (p : Z)
    : list signal :=
  command_signals g_start_cmd g_start_cmd_len (sizeof g_start_cmd_len) outside p
  ++ [Delay_ms START_TIME]
  ++ payload_signals command outside (p + 2 * sizeof g_start_cmd_len)
  ++ command_signals g_stop_cmd g_stop_cmd_len (sizeof g_stop_cmd_len) outside
       (p + 2 * sizeof g_start_cmd_len + 2 * payload_frames command).

(** ** UART: vocabulary of the statements *)

(** Every listed read of the status register shows [bit] set. *)
Definition always_set (bit : Z) (reads : list Z) : Prop :=
  Forall (fun r => _read_bit r bit <> 0) reads.

Definition is_byte (c : Z) : Prop := 0 <= c < 256.

Definition is_digit (c : Z) : bool := (48 <=? c) && (c <=? 57).

(** The number a string of decimal digits denotes. *)
Definition udec_value (text : list Z) : Z :=
  foldl (fun a c => 10 * a + (c - 48)) 0 text.

(** The characters [UART_write_udec] hands to [UART_write_char], in
    order. *)
Fixpoint udec_digits (depth : nat) (n : Z) : list Z :=
  match depth with
  | O => []
  | S depth =>
      if 10 <=? n then udec_digits depth (n / 10) ++ [n mod 10 + 48]
      else [n + 48]
  end.

Definition udec_text (n : Z) : list Z := udec_digits 10 (u32 n).

(** [f] transmits [text]: whenever it returns, it has appended [text] to
    the transmitted bytes and left the received bytes alone; and it
    returns, using one read of the status register per character, when
    the listed reads all show the transmitter empty and are at least as
    many as the characters. *)
Definition sends (f : uart -> option uart) (text : list Z) : Prop :=
  (forall u u', f u = Some u' ->
     UDR0_tx u' = UDR0_tx u ++ text /\ UDR0_rx u' = UDR0_rx u)
  /\ (forall u, always_set UDRE0 (UCSR0A_reads u) ->
        (length text <= length (UCSR0A_reads u))%nat ->
        exists u', f u = Some u'
          /\ UCSR0A_reads u' = drop (length text) (UCSR0A_reads u)).

(** [UART_write_char] on each character of a text in turn. *)
Fixpoint write_chars (text : list Z) (u : uart) : option uart :=
  match text with
  | [] => Some u
  | c :: text => UART_write_char c u ≫= write_chars text
  end.

(** One turn of the storing [if] in the loop of [UART_read_string], on
    the pair of buffer and index, for a limit [buffer_size - 1]. *)
Definition store_character (limit : Z) (bi : list Z * Z) (character : Z)
    : list Z * Z :=
  if bi.2 <? limit then (wr bi.1 bi.2 character, u16 (bi.2 + 1)) else bi.

(** One line of the report printed by the receiver's [main]. *)
Definition byte_line (v : Z) : list Z :=
  [66; 121; 116; 101; 58; 32] ++ udec_text v ++ [10].

(** * Properties *)

(** ** Machine arithmetic *)

Lemma u8_range z : 0 <= u8 z < 256.
Proof. unfold u8. apply Z.mod_pos_bound. lia. Qed.

Lemma u16_range z : 0 <= u16 z < 65536.
Proof. unfold u16. apply Z.mod_pos_bound. lia. Qed.

Lemma u64_range z : 0 <= u64 z < 2 ^ 64.
Proof. unfold u64. apply Z.mod_pos_bound. lia. Qed.

Lemma u64_small z : 0 <= z < 2 ^ 64 -> u64 z = z.
Proof. intros H. unfold u64. apply Z.mod_small. exact H. Qed.

Lemma u8_small z : 0 <= z < 256 -> u8 z = z.
Proof. intros H. unfold u8. apply Z.mod_small. lia. Qed.

(** Bit [n] of a byte after [_set_bit] and [_clear_bit] of bit [b]. *)
Lemma testbit_set_bit byte b n :
  0 <= b -> 0 <= n < 8 ->
  Z.testbit (_set_bit byte b) n = if decide (n = b) then true else Z.testbit byte n.
Proof.
  intros Hb Hn. unfold _set_bit, u8, _BV.
  rewrite Z.mod_pow2_bits_low by lia.
  rewrite Z.lor_spec, Z.shiftl_spec by lia.
  destruct (decide (n = b)) as [->|Hne].
  - rewrite Z.sub_diag. simpl. apply orb_true_r.
  - destruct (Z.lt_ge_cases n b) as [Hlt|Hge].
    + rewrite (Z.testbit_neg_r 1 (n - b)) by lia. apply orb_false_r.
    + replace (Z.testbit 1 (n - b)) with false; [apply orb_false_r|].
      symmetry. change 1 with (2 ^ 0). apply Z.pow2_bits_false. lia.
Qed.

Lemma testbit_clear_bit byte b n :
  0 <= b -> 0 <= n < 8 ->
  Z.testbit (_clear_bit byte b) n = if decide (n = b) then false else Z.testbit byte n.
Proof.
  intros Hb Hn. unfold _clear_bit, u8, _BV.
  rewrite Z.mod_pow2_bits_low by lia.
  rewrite Z.land_spec, Z.lnot_spec, Z.shiftl_spec by lia.
  destruct (decide (n = b)) as [->|Hne].
  - rewrite Z.sub_diag. simpl. apply andb_false_r.
  - destruct (Z.lt_ge_cases n b) as [Hlt|Hge].
    + rewrite (Z.testbit_neg_r 1 (n - b)) by lia. apply andb_true_r.
    + replace (Z.testbit 1 (n - b)) with false; [apply andb_true_r|].
      symmetry. change 1 with (2 ^ 0). apply Z.pow2_bits_false. lia.
Qed.

(** ** The decoder changes only what [write_bit] and the assignment to
    [g_last_event] change *)

Section Decoder_frame.
Variable R : receiver -> receiver -> Prop.
Hypothesis R_refl : forall s, R s s.
Hypothesis R_trans : forall a b c, R a b -> R b c -> R a c.
Hypothesis R_write : forall level s, R s (write_bit 7 level s).
Hypothesis R_last : forall v s, R s (set_last_event v s).
Hypothesis R_log : forall s, R s (log_decode_run s).

Lemma quarter_step_frame ls : R ls.2 (quarter_step ls).2.
Proof using R_refl R_write.
  destruct ls as [l s]. unfold quarter_step. simpl.
  destruct (event_cnt l =? EIGHTH_BIT_POS) eqn:E; [|apply R_refl].
  apply Z.eqb_eq in E. rewrite E. apply R_write.
Qed.

Lemma quarters_frame n ls : R ls.2 (Nat.iter n quarter_step ls).2.
Proof using R_refl R_trans R_write.
  induction n as [|n IH]; simpl; [apply R_refl|].
  eapply R_trans; [exact IH|apply quarter_step_frame].
Qed.

Lemma edge_step_frame ls i : R ls.2 (edge_step ls i).2.
Proof using R_refl R_trans R_write R_last.
  destruct ls as [l s]. unfold edge_step. simpl.
  destruct (0 <? i); simpl.
  - eapply R_trans; [|apply R_last].
    apply (quarters_frame _ (_, s)).
  - apply R_last.
Qed.

Lemma edges_frame ks ls : R ls.2 (foldl edge_step ls ks).2.
Proof using R_refl R_trans R_write R_last.
  revert ls. induction ks as [|i ks IH]; intros ls; simpl; [apply R_refl|].
  eapply R_trans; [apply edge_step_frame|apply IH].
Qed.

Lemma update_data_buffer_frame s : R s (update_data_buffer s).
Proof using All.
  unfold update_data_buffer.
  eapply R_trans; [|apply R_log].
  apply (edges_frame _ (_, s)).
Qed.
End Decoder_frame.

Lemma update_data_buffer_capture_state s :
  same_capture_state s (update_data_buffer s).
Proof.
  apply update_data_buffer_frame; unfold same_capture_state.
  - intros; repeat split.
  - intros a b c (?&?&?&?&?&?&?) (?&?&?&?&?&?&?).
    repeat split; congruence.
  - intros; repeat split.
  - intros; repeat split.
  - intros; repeat split.
Qed.

Lemma update_data_buffer_writes s :
  writes_bit7_at_byte_cnt s (update_data_buffer s).
Proof.
  apply update_data_buffer_frame; unfold writes_bit7_at_byte_cnt.
  - intros a. split; [reflexivity|]. exists []. split; [reflexivity|constructor].
  - intros a b c (Hab & n1 & E1 & F1) (Hbc & n2 & E2 & F2).
    split; [congruence|]. exists (n2 ++ n1). split.
    + rewrite E2, E1. apply app_assoc.
    + apply Forall_app. split; [|exact F1].
      rewrite Hab in F2. exact F2.
  - intros level a. split; [reflexivity|].
    exists [(g_byte_cnt a, 7, level)]. split; [reflexivity|].
    repeat constructor.
  - intros v a. split; [reflexivity|]. exists []. split; [reflexivity|constructor].
  - intros a. split; [reflexivity|]. exists []. split; [reflexivity|constructor].
Qed.

Lemma update_data_buffer_runs s :
  decode_runs (update_data_buffer s) = S (decode_runs s).
Proof.
  unfold update_data_buffer.
  set (r := foldl edge_step _ _).
  change (S (decode_runs r.2) = S (decode_runs s)). f_equal.
  apply (edges_frame (fun a b => decode_runs b = decode_runs a)
           ltac:(reflexivity) ltac:(intros a b c; congruence)
           ltac:(reflexivity) ltac:(reflexivity) _ (Locals 0 0 true, s)).
Qed.

#[local] Arguments update_data_buffer : simpl never.

(** ** Pulse-width classification *)

Lemma quarters_keep_locals n l s :
  quater_of_bit (Nat.iter n quarter_step (l, s)).1 = quater_of_bit l
  /\ state (Nat.iter n quarter_step (l, s)).1 = state l.
Proof.
  induction n as [|n [IHq IHs]]; [split; reflexivity|].
  rewrite Nat.iter_succ.
  split; unfold quarter_step at 1; cbn [fst snd quater_of_bit state]; assumption.
Qed.

Lemma edge_step_quarters l s i :
  0 < i ->
  quater_of_bit (edge_step (l, s) i).1
  = classify (pulse_width_of (rd (g_event_buffer s) i) (g_last_event s))
      (quater_of_bit l).
Proof.
  intros Hi. unfold edge_step. cbn [fst snd].
  destruct (Z.ltb_spec 0 i) as [_|?]; [|lia].
  cbn [fst snd quater_of_bit].
  apply (quarters_keep_locals _ (Locals _ _ _)).
Qed.

(** C3. The quarter-bit count of the decoder becomes 1 for a pulse width
    strictly between 20 and 100, 3 strictly between 120 and 200, 5
    strictly between 220 and 300; for every other width, the six
    boundary values among them, the previous count is kept.  In the
    decoder the width is a 16-bit value and the count left by one edge is
    this classification of it; there is no error outcome. *)
Theorem C3_pulse_width_bands :
  (forall w q : Z,
      (20 < w < 100 -> classify w q = 1)
      /\ (120 < w < 200 -> classify w q = 3)
      /\ (220 < w < 300 -> classify w q = 5)
      /\ (~ 20 < w < 100 -> ~ 120 < w < 200 -> ~ 220 < w < 300 ->
          classify w q = q)
      /\ (w ∈ [20; 100; 120; 200; 220; 300] -> classify w q = q))
  /\ (forall l s i,
         0 < i ->
         let w := pulse_width_of (rd (g_event_buffer s) i) (g_last_event s) in
         0 <= w < 2 ^ 16
         /\ quater_of_bit (edge_step (l, s) i).1 = classify w (quater_of_bit l)).
Proof.
  split.
  - intros w q. unfold classify.
    repeat split; intros;
      repeat match goal with
             | H : _ ∈ _ :: _ |- _ => apply elem_of_cons in H; destruct H as [H|H]
             | H : _ ∈ [] |- _ => apply elem_of_nil in H; destruct H
             end;
      repeat match goal with
             | |- context [?a <? ?b] => destruct (Z.ltb_spec a b)
             end; cbn [andb]; first [reflexivity | lia].
  - intros l s i Hi w. split.
    + apply u16_range.
    + apply edge_step_quarters. exact Hi.
Qed.

Lemma C3_pulse_width_bands_witness :
  classify 21 0 = 1 /\ classify 199 1 = 3 /\ classify 299 0 = 5
  /\ classify 100 3 = 3 /\ classify 220 1 = 1
  /\ quater_of_bit
       (edge_step (Locals 0 0 true, set_last_event 1000 (run init window_178)) 1).1
     = 5.
Proof.
  destruct C3_pulse_width_bands as [Hb Hd].
  split; [apply (proj1 (Hb 21 0)); lia|].
  split; [apply (proj1 (proj2 (Hb 199 1))); lia|].
  split; [apply (proj1 (proj2 (proj2 (Hb 299 0)))); lia|].
  split; [apply (proj1 (proj2 (proj2 (proj2 (Hb 100 3))))); lia|].
  split; [apply (proj2 (proj2 (proj2 (proj2 (Hb 220 1)))));
          apply list_elem_of_In; simpl; tauto|].
  destruct (Hd (Locals 0 0 true) (set_last_event 1000 (run init window_178)) 1)
    as [_ ->]; [lia|].
  vm_compute. reflexivity.
Defined.

(** ** Polling *)

(** C4. [IR_is_data_available] first decodes a pending full window (once)
    and clears the full flag; it returns true exactly when the byte
    counter is 12 and then resets the counter to 0; called again at once
    it returns false. *)
Theorem C4_data_available_once (s : receiver) :
  let r := IR_is_data_available s in
  g_is_event_buffer_full r.2 = false
  /\ (if g_is_event_buffer_full s
      then g_data_buffer r.2 = g_data_buffer (update_data_buffer s)
           /\ g_last_event r.2 = g_last_event (update_data_buffer s)
           /\ decode_runs r.2 = S (decode_runs s)
      else g_data_buffer r.2 = g_data_buffer s
           /\ g_last_event r.2 = g_last_event s
           /\ decode_runs r.2 = decode_runs s)
  /\ (r.1 = true <-> g_byte_cnt s = 12)
  /\ g_byte_cnt r.2 = (if r.1 then 0 else g_byte_cnt s)
  /\ (IR_is_data_available r.2).1 = false.
Proof.
  pose proof (update_data_buffer_capture_state s) as (Hcnt & _).
  pose proof (update_data_buffer_runs s) as Hruns.
  unfold IR_is_data_available, DATA_BUFFER_SIZE.
  revert Hcnt Hruns. generalize (update_data_buffer s). intros d Hcnt Hruns.
  destruct (g_is_event_buffer_full s) eqn:Hfull;
    cbn [g_byte_cnt set_is_event_buffer_full]; rewrite ?Hcnt;
    destruct (Z.eqb_spec (g_byte_cnt s) 12) as [E|E];
    cbn -[Z.eqb]; rewrite ?Hfull, ?Hcnt;
    try (destruct (Z.eqb_spec (g_byte_cnt s) 12); [lia|]);
    cbn; repeat split; done.
Qed.

(** ** The interrupt handlers, field by field *)

Lemma capture_fields h l s :
  0 <= g_event_buffer_index s < 30 ->
  let s' := ISR_TIMER1_CAPT h l s in
  g_event_buffer s'
  = <[Z.to_nat (g_event_buffer_index s) := u64 (g_virtual_cnt s + timer_value_of h l)]>
      (g_event_buffer s)
  /\ g_virtual_cnt s' = g_virtual_cnt s
  /\ g_data_buffer s' = g_data_buffer s
  /\ decode_runs s' = decode_runs s
  /\ bit_writes s' = bit_writes s
  /\ g_is_edge_falling s' = negb (g_is_edge_falling s)
  /\ (if decide (g_event_buffer_index s + 1 = 30)
      then g_event_buffer_index s' = 0
           /\ g_is_event_buffer_full s' = true
           /\ g_byte_cnt s' = u8 (g_byte_cnt s + 1)
      else g_event_buffer_index s' = g_event_buffer_index s + 1
           /\ g_is_event_buffer_full s' = g_is_event_buffer_full s
           /\ g_byte_cnt s' = g_byte_cnt s).
Proof.
  intros Hi. unfold ISR_TIMER1_CAPT, EVENT_BUFFER_SIZE, wr.
  destruct (g_is_edge_falling s) eqn:Hedge; cbn;
    rewrite (u8_small (g_event_buffer_index s + 1)) by lia;
    destruct (decide (g_event_buffer_index s + 1 = 30)) as [E|E];
    destruct (Z.eqb_spec (g_event_buffer_index s + 1) 30); try lia; cbn;
    rewrite ?Hedge; repeat split; reflexivity.
Qed.

Lemma poll_fields s :
  let s' := (IR_is_data_available s).2 in
  g_event_buffer_index s' = g_event_buffer_index s
  /\ g_event_buffer s' = g_event_buffer s
  /\ g_virtual_cnt s' = g_virtual_cnt s
  /\ g_is_event_buffer_full s' = false
  /\ decode_runs s' = (decode_runs s + (if g_is_event_buffer_full s then 1 else 0))%nat
  /\ (g_byte_cnt s' = 0 \/ g_byte_cnt s' = g_byte_cnt s).
Proof.
  pose proof (update_data_buffer_capture_state s) as (Hc & Hv & _ & _ & Hi & Hb & _).
  pose proof (update_data_buffer_runs s) as Hruns.
  unfold IR_is_data_available.
  revert Hc Hv Hi Hb Hruns. generalize (update_data_buffer s).
  intros d Hc Hv Hi Hb Hruns.
  destruct (g_is_event_buffer_full s) eqn:Hfull;
    match goal with |- context [if ?c then _ else _] => destruct c end;
    cbn; rewrite ?Hfull, ?Hc, ?Hv, ?Hi, ?Hb, ?Hruns;
    repeat split; auto; lia.
Qed.

Lemma captures_snoc es e :
  captures (es ++ [e]) = captures es + match e with Capture _ _ => 1 | _ => 0 end.
Proof.
  induction es as [|x es IH]; [destruct e; reflexivity|].
  destruct x; cbn [app captures]; rewrite IH; lia.
Qed.

Lemma overflows_snoc es e :
  overflows (es ++ [e]) = overflows es + match e with Overflow => 1 | _ => 0 end.
Proof.
  induction es as [|x es IH]; [destruct e; reflexivity|].
  destruct x; cbn [app overflows]; rewrite IH; lia.
Qed.

Lemma captures_nonneg es : 0 <= captures es.
Proof. induction es as [|[] es IH]; cbn [captures]; lia. Qed.

Lemma overflows_nonneg es : 0 <= overflows es.
Proof. induction es as [|[] es IH]; cbn [overflows]; lia. Qed.

Lemma run_snoc s es e : run s (es ++ [e]) = step (run s es) e.
Proof. unfold run. apply foldl_snoc. Qed.

Lemma run_invariant_init : run_invariant [] init.
Proof. unfold run_invariant. vm_compute. repeat split; congruence. Qed.

Lemma run_invariant_step es s e :
  run_invariant es s -> run_invariant (es ++ [e]) (step s e).
Proof.
  intros (Hi & Hlen & Hruns & Hcnt & Hv).
  pose proof (captures_nonneg es) as Hc0.
  assert (0 <= g_event_buffer_index s < 30) as Hrange
    by (rewrite Hi; apply Z.mod_pos_bound; lia).
  unfold run_invariant. rewrite captures_snoc, overflows_snoc.
  destruct e as [|h l|]; cbn [step].
  - unfold ISR_TIMER1_OVF. cbn. rewrite Z.add_0_r.
    repeat split; try assumption.
    rewrite Hv. unfold u64.
    rewrite Z.add_mod_idemp_l by lia. f_equal. lia.
  - pose proof (capture_fields h l s Hrange) as (Hb & Hv' & _ & Hr & _ & _ & Hcase).
    cbv zeta in Hb, Hv', Hr, Hcase.
    rewrite Hb, Hv', Hr, length_insert, Z.add_0_r.
    destruct (decide (g_event_buffer_index s + 1 = 30)) as [E|E];
      destruct Hcase as (Hi' & Hf' & Hc'); rewrite Hi', Hf'.
    + repeat split; try assumption.
      * rewrite Hi in E. Z.div_mod_to_equations. lia.
      * rewrite Hi in E.
        destruct (g_is_event_buffer_full s); cbn [Z.b2z] in *;
          Z.div_mod_to_equations; lia.
      * intros Hlt. rewrite Hi in E. Z.div_mod_to_equations. lia.
    + repeat split; try assumption.
      * rewrite Hi in E |- *. Z.div_mod_to_equations. lia.
      * rewrite Hi in E. Z.div_mod_to_equations. lia.
      * intros Hlt. rewrite Hc'. apply Hcnt. lia.
  - pose proof (poll_fields s) as (Hi' & Hb' & Hv' & Hf' & Hr' & Hc').
    cbv zeta in Hi', Hb', Hv', Hf', Hr', Hc'.
    rewrite Hi', Hb', Hv', Hf', Hr', !Z.add_0_r.
    repeat split; try assumption.
    + destruct (g_is_event_buffer_full s); cbn [Z.b2z] in *; lia.
    + intros Hlt. destruct Hc' as [->| ->]; [reflexivity|auto].
Qed.

Lemma run_invariant_holds es : run_invariant es (run init es).
Proof.
  induction es as [|e es IH] using rev_ind; [apply run_invariant_init|].
  rewrite run_snoc. apply run_invariant_step. exact IH.
Qed.

Lemma timer_value_range h l : 0 <= timer_value_of h l < 2 ^ 16.
Proof. apply u16_range. Qed.

(** The virtual counter is a multiple of 2^16 below 2^64, so adding a
    timer value to it does not wrap. *)
Lemma timestamp_exact n t :
  0 <= t < 2 ^ 16 -> u64 (u64 (65536 * n) + t) = u64 (65536 * n) + t.
Proof.
  intros Ht. apply u64_small. unfold u64.
  change (2 ^ 64) with (65536 * 2 ^ 48).
  rewrite Z.mul_mod_distr_l by lia.
  pose proof (Z.mod_pos_bound n (2 ^ 48) ltac:(lia)). lia.
Qed.

Lemma u64_below n : 0 <= n < 2 ^ 48 -> u64 (65536 * n) = 65536 * n.
Proof. intros H. apply u64_small. lia. Qed.

(** ** Capturing edges *)

(** The byte counter stays an 8-bit value. *)
Lemma byte_cnt_range es : 0 <= g_byte_cnt (run init es) < 256.
Proof.
  induction es as [|e es IH] using rev_ind; [vm_compute; split; congruence|].
  pose proof (run_invariant_holds es) as (Hi & _).
  pose proof (captures_nonneg es) as Hc0.
  assert (0 <= g_event_buffer_index (run init es) < 30) as Hrange
    by (rewrite Hi; apply Z.mod_pos_bound; lia).
  rewrite run_snoc. destruct e as [|h l|]; cbn [step].
  - exact IH.
  - pose proof (capture_fields h l _ Hrange) as (_ & _ & _ & _ & _ & _ & Hcase).
    cbv zeta in Hcase.
    destruct (decide (g_event_buffer_index (run init es) + 1 = 30));
      destruct Hcase as (_ & _ & ->); [apply u8_range|exact IH].
  - destruct (poll_fields (run init es)) as (_ & _ & _ & _ & _ & [-> | ->]);
      [lia|exact IH].
Qed.

(** Captures that follow a completed window before the poll: they fill
    the buffer from slot 0 on, over the timestamps of the completed
    window, and change neither the flag nor the byte counter. *)
Lemma captures_overwrite s timer_values :
  g_event_buffer_index s = 0 ->
  length (g_event_buffer s) = 30%nat ->
  (length timer_values < 30)%nat ->
  let s' := run s (captures_of timer_values) in
  g_is_event_buffer_full s' = g_is_event_buffer_full s
  /\ g_byte_cnt s' = g_byte_cnt s
  /\ g_virtual_cnt s' = g_virtual_cnt s
  /\ decode_runs s' = decode_runs s
  /\ g_event_buffer_index s' = Z.of_nat (length timer_values)
  /\ g_event_buffer s'
     = ((fun hl => u64 (g_virtual_cnt s + timer_value_of hl.1 hl.2)) <$> timer_values)
       ++ drop (length timer_values) (g_event_buffer s).
Proof.
  intros Hindex Hlen.
  induction timer_values as [|hl timer_values IH] using rev_ind; intros Hk s'.
  - subst s'. cbn. rewrite Hindex. repeat split.
  - rewrite length_app in Hk. cbn [length] in Hk.
    destruct (IH ltac:(lia)) as (Hf & Hc & Hv & Hr & Hi & Hb).
    subst s'. unfold captures_of. rewrite fmap_app. cbn [fmap list_fmap].
    rewrite run_snoc. fold (captures_of timer_values). cbn [step].
    revert Hf Hc Hv Hr Hi Hb. generalize (run s (captures_of timer_values)).
    intros s1 Hf Hc Hv Hr Hi Hb.
    pose proof (capture_fields hl.1 hl.2 s1 ltac:(lia))
      as (Hb' & Hv' & _ & Hr' & _ & _ & Hcase).
    cbv zeta in Hb', Hv', Hr', Hcase.
    destruct (decide (g_event_buffer_index s1 + 1 = 30)) as [E|_]; [lia|].
    destruct Hcase as (Hi' & Hf' & Hc').
    rewrite Hf', Hc', Hv', Hr', Hi', Hb', Hf, Hc, Hv, Hr, Hi, Hb.
    rewrite length_app. cbn [length].
    split; [reflexivity|]. split; [reflexivity|]. split; [reflexivity|].
    split; [reflexivity|]. split; [lia|].
    rewrite Nat2Z.id, fmap_app. cbn [fmap list_fmap].
    rewrite insert_app_r_alt by (rewrite length_fmap; lia).
    rewrite length_fmap, Nat.sub_diag, <- app_assoc. f_equal.
    destruct (drop (length timer_values) (g_event_buffer s)) as [|x rest] eqn:Hd.
    + apply (f_equal length) in Hd. rewrite length_drop in Hd. cbn in Hd. lia.
    + rewrite <- (drop_drop _ 1 (length timer_values)), Hd. reflexivity.
Qed.

(** C7, as stated, fails in two places.  The completed-frame counter is
    an 8-bit variable: without a poll that resets it, it stands at 255
    after 255 windows, and the capture that completes the 256th window
    takes it to 0, not up by one.  The full flag does not stop the
    capture handler: when no poll follows the 30 captures of one window,
    the next five captures overwrite slots 0 to 4 and leave the index at
    5, the flag stays set, and the poll that comes then runs the decoder
    on a buffer whose first five timestamps belong to a window that has
    received five captures. *)
Lemma C7_counter_wraps_and_late_poll :
  (g_byte_cnt (run init (replicate (Z.to_nat 7679) (Capture 0 0))) = 255
   /\ g_event_buffer_index (run init (replicate (Z.to_nat 7679) (Capture 0 0))) = 29
   /\ g_byte_cnt (run init (replicate (Z.to_nat 7679) (Capture 0 0) ++ [Capture 0 0]))
      = 0)
  /\ ~ (forall es h l,
           g_event_buffer_index (run init es) = 29 ->
           g_byte_cnt (run init (es ++ [Capture h l]))
           = g_byte_cnt (run init es) + 1)
  /\ (captures (window_178 ++ take 5 window_36) = 35
      /\ g_event_buffer_index (run init (window_178 ++ take 5 window_36)) = 5
      /\ g_is_event_buffer_full (run init (window_178 ++ take 5 window_36)) = true
      /\ g_event_buffer (run init (window_178 ++ take 5 window_36))
         = take 5 (edges 500 widths_36) ++ drop 5 (edges 1000 widths_178)
      /\ decode_runs (run init (window_178 ++ take 5 window_36)) = 0%nat
      /\ decode_runs (run init ((window_178 ++ take 5 window_36) ++ [Poll])) = 1%nat)
  /\ ~ (forall es,
           g_is_event_buffer_full (run init es) = true ->
           g_event_buffer_index (run init es) = 0).
Proof.
  assert (g_byte_cnt (run init (replicate (Z.to_nat 7679) (Capture 0 0))) = 255
          /\ g_event_buffer_index (run init (replicate (Z.to_nat 7679) (Capture 0 0)))
             = 29
          /\ g_byte_cnt
               (run init (replicate (Z.to_nat 7679) (Capture 0 0) ++ [Capture 0 0]))
             = 0) as Hwrap
    by (vm_compute; repeat split; reflexivity).
  assert (captures (window_178 ++ take 5 window_36) = 35
          /\ g_event_buffer_index (run init (window_178 ++ take 5 window_36)) = 5
          /\ g_is_event_buffer_full (run init (window_178 ++ take 5 window_36)) = true
          /\ g_event_buffer (run init (window_178 ++ take 5 window_36))
             = take 5 (edges 500 widths_36) ++ drop 5 (edges 1000 widths_178)
          /\ decode_runs (run init (window_178 ++ take 5 window_36)) = 0%nat
          /\ decode_runs (run init ((window_178 ++ take 5 window_36) ++ [Poll]))
             = 1%nat) as Hlate
    by (vm_compute; repeat split; reflexivity).
  split; [exact Hwrap|]. split; [|split; [exact Hlate|]].
  - intros H. destruct Hwrap as (H255 & H29 & H0).
    specialize (H _ 0 0 H29). rewrite H0, H255 in H. discriminate H.
  - intros H. destruct Hlate as (_ & H5 & Hfull & _).
    specialize (H _ Hfull). rewrite H5 in H. discriminate H.
Qed.

(** C7, amended. After any sequence of interrupts and polls from
    initialisation, the window index is the number of captures modulo 30
    and the byte counter is an 8-bit value.  The next capture stores one
    timestamp at the index and touches no other slot; when the index is
    29 it resets the index, sets the full flag and increments the byte
    counter modulo 256 (by exactly one below 255, from 255 to 0), and
    otherwise it only advances the index.  It does so whether or not the
    flag is set.  A poll leaves buffer and index alone, clears the flag,
    and runs the decoder once if it found the flag set; an overflow
    changes none of these.  So the decoder has run at most once per
    completed window, and before the 30th capture the flag is not set and
    nothing has been decoded.  When k captures, k below 30, follow a
    completed window before the poll, the flag and the byte counter stay
    as they were, the index is k, the first k slots hold the new
    timestamps and the other slots still those of the completed window;
    the poll that comes then runs the decoder, if the flag is set, on
    that buffer. *)
Theorem C7_capture_fills_window (es : list event) :
  let s := run init es in
  g_event_buffer_index s = captures es mod 30
  /\ 0 <= g_byte_cnt s < 256
  /\ (forall h l,
         let s' := ISR_TIMER1_CAPT h l s in
         g_event_buffer s'
         = <[Z.to_nat (g_event_buffer_index s) := g_virtual_cnt s + timer_value_of h l]>
             (g_event_buffer s)
         /\ length (g_event_buffer s') = 30%nat
         /\ (if decide (g_event_buffer_index s + 1 = 30)
             then g_event_buffer_index s' = 0
                  /\ g_is_event_buffer_full s' = true
                  /\ g_byte_cnt s' = (g_byte_cnt s + 1) mod 256
                  /\ (g_byte_cnt s < 255 -> g_byte_cnt s' = g_byte_cnt s + 1)
                  /\ (g_byte_cnt s = 255 -> g_byte_cnt s' = 0)
             else g_event_buffer_index s' = g_event_buffer_index s + 1
                  /\ g_is_event_buffer_full s' = g_is_event_buffer_full s
                  /\ g_byte_cnt s' = g_byte_cnt s))
  /\ (let s' := step s Poll in
      g_event_buffer s' = g_event_buffer s
      /\ g_event_buffer_index s' = g_event_buffer_index s
      /\ g_is_event_buffer_full s' = false
      /\ decode_runs s'
         = (decode_runs s + (if g_is_event_buffer_full s then 1 else 0))%nat)
  /\ (let s' := step s Overflow in
      g_event_buffer s' = g_event_buffer s
      /\ g_event_buffer_index s' = g_event_buffer_index s
      /\ g_is_event_buffer_full s' = g_is_event_buffer_full s
      /\ g_byte_cnt s' = g_byte_cnt s
      /\ decode_runs s' = decode_runs s)
  /\ Z.of_nat (decode_runs s) + Z.b2z (g_is_event_buffer_full s) <= captures es / 30
  /\ (captures es < 30 ->
      g_is_event_buffer_full s = false /\ decode_runs s = 0%nat)
  /\ (forall timer_values,
         captures es mod 30 = 0 -> (length timer_values < 30)%nat ->
         let s' := run init (es ++ captures_of timer_values) in
         g_is_event_buffer_full s' = g_is_event_buffer_full s
         /\ g_byte_cnt s' = g_byte_cnt s
         /\ g_event_buffer_index s' = Z.of_nat (length timer_values)
         /\ g_event_buffer s'
            = ((fun hl => g_virtual_cnt s + timer_value_of hl.1 hl.2) <$> timer_values)
              ++ drop (length timer_values) (g_event_buffer s)
         /\ decode_runs (step s' Poll)
            = (decode_runs s + (if g_is_event_buffer_full s then 1 else 0))%nat).
Proof.
  intros s.
  pose proof (run_invariant_holds es) as (Hi & Hlen & Hruns & Hcnt & Hv).
  pose proof (byte_cnt_range es) as Hbyte.
  fold s in Hi, Hlen, Hruns, Hcnt, Hv, Hbyte.
  pose proof (captures_nonneg es) as Hc0.
  assert (0 <= g_event_buffer_index s < 30) as Hrange
    by (rewrite Hi; apply Z.mod_pos_bound; lia).
  split; [exact Hi|]. split; [exact Hbyte|].
  split; [|split; [|split; [|split; [exact Hruns|split]]]].
  - intros h l s'.
    pose proof (capture_fields h l s Hrange) as (Hb & _ & _ & _ & _ & _ & Hcase).
    fold s' in Hb, Hcase. split; [|split].
    + rewrite Hb, Hv. rewrite timestamp_exact by apply timer_value_range.
      reflexivity.
    + rewrite Hb, length_insert. exact Hlen.
    + destruct (decide (g_event_buffer_index s + 1 = 30)); [|exact Hcase].
      destruct Hcase as (Hi' & Hf' & Hc'). unfold u8 in Hc'.
      change (2 ^ 8) with 256 in Hc'.
      repeat split; try assumption.
      * intros Hlt. rewrite Hc'. apply Z.mod_small. lia.
      * intros Heq. rewrite Hc', Heq. reflexivity.
  - intros s'.
    pose proof (poll_fields s) as (Hi' & Hb' & _ & Hf' & Hr' & _).
    repeat split; assumption.
  - repeat split.
  - intros Hlt. rewrite Z.div_small in Hruns by lia.
    destruct (g_is_event_buffer_full s); cbn [Z.b2z] in Hruns; split;
      first [reflexivity | lia].
  - intros timer_values Hzero Hk s'.
    assert (s' = run s (captures_of timer_values)) as ->
      by (unfold s', s, run; apply foldl_app).
    rewrite Hzero in Hi.
    destruct (captures_overwrite s timer_values Hi Hlen Hk)
      as (Hf' & Hc' & _ & Hr' & Hi' & Hb').
    revert Hf' Hc' Hr' Hi' Hb'. generalize (run s (captures_of timer_values)).
    intros s' Hf' Hc' Hr' Hi' Hb'.
    split; [exact Hf'|]. split; [exact Hc'|]. split; [exact Hi'|]. split.
    + rewrite Hb'. f_equal. apply list_fmap_ext. intros i hl _.
      rewrite Hv. apply timestamp_exact, timer_value_range.
    + cbn [step].
      pose proof (poll_fields s') as (_ & _ & _ & _ & Hr'' & _).
      cbv zeta in Hr''. rewrite Hr'', Hr', Hf'. reflexivity.
Qed.

Lemma C7_capture_fills_window_witness :
  g_is_event_buffer_full (run init (Poll :: take 29 window_178 ++ [Overflow; Poll]))
  = false
  /\ decode_runs (run init (Poll :: take 29 window_178 ++ [Overflow; Poll])) = 0%nat.
Proof.
  apply (proj1 (proj2 (proj2 (proj2 (proj2 (proj2 (proj2
           (C7_capture_fills_window
              (Poll :: take 29 window_178 ++ [Overflow; Poll]))))))))).
  vm_compute. reflexivity.
Defined.

(** ** The virtual counter *)

Lemma overflows_replicate n : overflows (replicate n Overflow) = Z.of_nat n.
Proof. induction n as [|n IH]; cbn [replicate overflows]; lia. Qed.

Lemma overflow_run n :
  0 <= n ->
  g_virtual_cnt (run init (replicate (Z.to_nat n) Overflow)) = u64 (65536 * n).
Proof.
  intros Hn.
  pose proof (run_invariant_holds (replicate (Z.to_nat n) Overflow))
    as (_ & _ & _ & _ & Hv).
  rewrite Hv, overflows_replicate, Z2Nat.id by exact Hn. reflexivity.
Qed.

(** C8, as stated, fails: after 2^48 - 1 timer overflows the virtual
    counter is 2^64 - 2^16, and the next overflow takes it to 0. *)
Lemma C8_counter_wraps :
  g_virtual_cnt (run init (replicate (Z.to_nat (2 ^ 48 - 1)) Overflow))
  = 2 ^ 64 - 2 ^ 16
  /\ g_virtual_cnt
       (run init (replicate (Z.to_nat (2 ^ 48 - 1)) Overflow ++ [Overflow]))
     = 0
  /\ ~ (forall es e,
           g_virtual_cnt (run init es) <= g_virtual_cnt (run init (es ++ [e]))).
Proof.
  assert (g_virtual_cnt (run init (replicate (Z.to_nat (2 ^ 48 - 1)) Overflow))
          = 2 ^ 64 - 2 ^ 16) as H1.
  { rewrite overflow_run by lia. reflexivity. }
  assert (g_virtual_cnt
            (run init (replicate (Z.to_nat (2 ^ 48 - 1)) Overflow ++ [Overflow]))
          = 0) as H2.
  { rewrite run_snoc. cbn [step]. unfold ISR_TIMER1_OVF.
    cbn [g_virtual_cnt set_virtual_cnt]. rewrite H1. reflexivity. }
  split; [exact H1|]. split; [exact H2|].
  intros H.
  specialize (H (replicate (Z.to_nat (2 ^ 48 - 1)) Overflow) Overflow).
  rewrite H1, H2 in H. lia.
Qed.

(** C8, amended. After any run from initialisation the virtual counter is
    2^16 times the number of overflows, modulo 2^64.  An overflow adds
    2^16 modulo 2^64; a capture or a poll leaves the counter as it is, and
    a capture stores the counter plus the 16-bit timer value, without
    wrap-around.  While fewer than 2^48 overflows have occurred the
    counter is exactly 2^16 times their number and has never decreased. *)
Theorem C8_virtual_counter (es : list event) (e : event) :
  let s := run init es in
  let s' := run init (es ++ [e]) in
  g_virtual_cnt s = (2 ^ 16 * overflows es) mod 2 ^ 64
  /\ match e with
     | Overflow => g_virtual_cnt s' = (g_virtual_cnt s + 2 ^ 16) mod 2 ^ 64
     | Capture h l =>
         g_virtual_cnt s' = g_virtual_cnt s
         /\ rd (g_event_buffer s') (g_event_buffer_index s)
            = g_virtual_cnt s + timer_value_of h l
         /\ 0 <= timer_value_of h l < 2 ^ 16
     | Poll => g_virtual_cnt s' = g_virtual_cnt s
     end
  /\ (overflows (es ++ [e]) < 2 ^ 48 ->
      g_virtual_cnt s <= g_virtual_cnt s'
      /\ g_virtual_cnt s' = 2 ^ 16 * overflows (es ++ [e])
      /\ (e = Overflow -> g_virtual_cnt s' = g_virtual_cnt s + 2 ^ 16)).
Proof.
  intros s s'.
  pose proof (run_invariant_holds es) as (Hi & Hlen & _ & _ & Hv).
  pose proof (run_invariant_holds (es ++ [e])) as (_ & _ & _ & _ & Hv').
  fold s in Hi, Hlen, Hv. fold s' in Hv'.
  pose proof (captures_nonneg es) as Hc0.
  pose proof (overflows_nonneg es) as Ho0.
  assert (0 <= g_event_buffer_index s < 30) as Hrange
    by (rewrite Hi; apply Z.mod_pos_bound; lia).
  assert (s' = step s e) as Hs' by apply run_snoc.
  split; [exact Hv|]. split.
  - destruct e as [|h l|]; rewrite Hs'; cbn [step].
    + reflexivity.
    + pose proof (capture_fields h l s Hrange) as (Hb & Hvc & _).
      cbv zeta in Hb, Hvc. split; [exact Hvc|]. split; [|apply timer_value_range].
      rewrite Hb. unfold rd. rewrite list_lookup_insert_eq by lia.
      cbn [default]. rewrite Hv. apply timestamp_exact, timer_value_range.
    + apply poll_fields.
  - intros Hlt. rewrite overflows_snoc in Hv', Hlt.
    rewrite Hv, Hv', overflows_snoc.
    assert (0 <= overflows es < 2 ^ 48) as Hsmall by (destruct e; lia).
    rewrite (u64_below (overflows es)) by exact Hsmall.
    rewrite u64_below by (destruct e; lia).
    repeat split; [destruct e; lia | intros ->; lia].
Qed.

Lemma C8_virtual_counter_witness :
  g_virtual_cnt (run init [Overflow; capture_at 7; Poll])
  <= g_virtual_cnt (run init ([Overflow; capture_at 7; Poll] ++ [Overflow]))
  /\ g_virtual_cnt (run init ([Overflow; capture_at 7; Poll] ++ [Overflow]))
     = 2 ^ 16 * overflows ([Overflow; capture_at 7; Poll] ++ [Overflow])
  /\ (Overflow = Overflow ->
      g_virtual_cnt (run init ([Overflow; capture_at 7; Poll] ++ [Overflow]))
      = g_virtual_cnt (run init [Overflow; capture_at 7; Poll]) + 2 ^ 16).
Proof.
  apply (C8_virtual_counter [Overflow; capture_at 7; Poll] Overflow).
  vm_compute. reflexivity.
Defined.

(** ** What the decoder writes *)

Lemma capture_data_buffer h l s :
  g_data_buffer (ISR_TIMER1_CAPT h l s) = g_data_buffer s.
Proof.
  unfold ISR_TIMER1_CAPT.
  destruct (g_is_edge_falling s); cbn;
    match goal with |- context [if ?c then _ else _] => destruct c end;
    reflexivity.
Qed.

Lemma poll_data_buffer s :
  g_data_buffer (IR_is_data_available s).2
  = if g_is_event_buffer_full s then g_data_buffer (update_data_buffer s)
    else g_data_buffer s.
Proof.
  unfold IR_is_data_available. generalize (update_data_buffer s). intros d.
  destruct (g_is_event_buffer_full s);
    match goal with |- context [if ?c =? ?d then _ else _] => destruct (c =? d) end;
    reflexivity.
Qed.

Lemma write_bit7_only_bit7 level s : only_bit7 s -> only_bit7 (write_bit 7 level s).
Proof.
  unfold only_bit7, write_bit, wr. cbn [g_data_buffer log_bit_write set_data_buffer].
  intros H. apply Forall_insert; [exact H|].
  assert (rd (g_data_buffer s) (g_byte_cnt s) = 0
          \/ rd (g_data_buffer s) (g_byte_cnt s) = 128) as [-> | ->].
  { unfold rd. destruct (g_data_buffer s !! Z.to_nat (g_byte_cnt s)) as [b|] eqn:E.
    - apply (Forall_lookup_1 _ _ _ _ H E).
    - left. reflexivity. }
  all: destruct level; vm_compute; tauto.
Qed.

Lemma update_data_buffer_only_bit7 s :
  only_bit7 s -> only_bit7 (update_data_buffer s).
Proof.
  apply (update_data_buffer_frame (fun a b => only_bit7 a -> only_bit7 b)).
  - auto.
  - auto.
  - intros level a. apply write_bit7_only_bit7.
  - auto.
  - auto.
Qed.

Lemma run_only_bit7 es : only_bit7 (run init es).
Proof.
  induction es as [|e es IH] using rev_ind.
  - unfold only_bit7. vm_compute. repeat constructor.
  - rewrite run_snoc. destruct e as [|h l|]; cbn [step].
    + exact IH.
    + unfold only_bit7. rewrite capture_data_buffer. exact IH.
    + unfold only_bit7. rewrite poll_data_buffer.
      destruct (g_is_event_buffer_full (run init es)); [|exact IH].
      apply update_data_buffer_only_bit7, IH.
Qed.

(** [find_bit_position] maps the eight offsets to the eight bits, most
    significant bit first, and does nothing for any other position. *)
Lemma find_bit_position_offsets level s :
  find_bit_position 23 level s = write_bit 7 level s
  /\ find_bit_position 27 level s = write_bit 6 level s
  /\ find_bit_position 31 level s = write_bit 5 level s
  /\ find_bit_position 35 level s = write_bit 4 level s
  /\ find_bit_position 39 level s = write_bit 3 level s
  /\ find_bit_position 43 level s = write_bit 2 level s
  /\ find_bit_position 47 level s = write_bit 1 level s
  /\ find_bit_position 51 level s = write_bit 0 level s
  /\ (forall p, p ∉ [23; 27; 31; 35; 39; 43; 47; 51] ->
      find_bit_position p level s = s).
Proof.
  repeat (split; [reflexivity|]).
  intros p Hp. unfold find_bit_position.
  repeat match goal with
         | |- context [p =? ?c] =>
             destruct (Z.eqb_spec p c) as [->|_];
             [exfalso; apply Hp; apply list_elem_of_In; simpl; tauto|]
         end.
  reflexivity.
Qed.

(** [write_bit] inside the buffer: the addressed bit takes the level, the
    other seven bits of the byte keep their value. *)
Lemma write_bit_byte bit level s n :
  0 <= bit < 8 -> 0 <= n < 8 ->
  (Z.to_nat (g_byte_cnt s) < length (g_data_buffer s))%nat ->
  Z.testbit (rd (g_data_buffer (write_bit bit level s)) (g_byte_cnt s)) n
  = if decide (n = bit) then level
    else Z.testbit (rd (g_data_buffer s) (g_byte_cnt s)) n.
Proof.
  intros Hb Hn Hk. unfold write_bit, wr.
  cbn [g_data_buffer log_bit_write set_data_buffer].
  unfold rd at 1. rewrite list_lookup_insert_eq by exact Hk. cbn [default].
  unfold id. destruct level.
  - rewrite testbit_set_bit by lia. destruct (decide (n = bit)); reflexivity.
  - rewrite testbit_clear_bit by lia. destruct (decide (n = bit)); reflexivity.
Qed.

(** C1 (the code departs from it). On the window [window_36] the running
    count meets offsets 31 and 43 while the level is 1, so the byte the
    window stands for is 36; the decoder writes once, at offset 23, and
    leaves the byte at 0.  On every state, whatever [update_data_buffer]
    writes goes to bit 7. *)
Theorem C1_only_offset_23_is_written :
  spec_decode (edges 500 widths_36) = 36
  /\ bit_writes (run init (window_36 ++ [Poll])) = [(1, 7, false)]
  /\ g_data_buffer (run init (window_36 ++ [Poll])) = replicate 12 0
  /\ (forall s, exists new,
         bit_writes (update_data_buffer s) = new ++ bit_writes s
         /\ Forall (fun w => w.1.2 = 7) new).
Proof.
  split; [vm_compute; reflexivity|].
  split; [vm_compute; reflexivity|].
  split; [vm_compute; reflexivity|].
  intros s. destruct (update_data_buffer_writes s) as (_ & new & E & F).
  exists new. split; [exact E|].
  rewrite Forall_forall in F |- *. intros w Hw. apply (F w Hw).
Qed.

(** C2 (the code departs from it). The window [window_178] stands for the
    byte 178; decoded after initialisation it leaves 128 in slot 1 of the
    data buffer, after a single write to bit 7.  No run from
    initialisation puts 178 into the data buffer: its bytes are 0 or 128. *)
Theorem C2_window_178_decodes_to_128 :
  spec_decode (edges 1000 widths_178) = 178
  /\ g_data_buffer (run init (window_178 ++ [Poll]))
     = [0; 128; 0; 0; 0; 0; 0; 0; 0; 0; 0; 0]
  /\ bit_writes (run init (window_178 ++ [Poll])) = [(1, 7, true)]
  /\ (forall es, 178 ∉ g_data_buffer (run init es)).
Proof.
  split; [vm_compute; reflexivity|].
  split; [vm_compute; reflexivity|].
  split; [vm_compute; reflexivity|].
  intros es Hin.
  pose proof (run_only_bit7 es) as H. unfold only_bit7 in H.
  rewrite Forall_forall in H. apply list_elem_of_In, H in Hin. lia.
Qed.

(** C10 (the code departs from it). After twelve windows, polled in the
    rhythm of [main], the twelfth is pending with the byte counter at 12;
    the poll that decodes it writes at index 12 of a buffer of 12 bytes
    and then reports the reception.  In general every write of a decode
    goes to index [g_byte_cnt], which the capture handler has already
    incremented. *)
Theorem C10_twelfth_window_index_12 :
  let s := run init twelve_windows_captured in
  g_is_event_buffer_full s = true
  /\ g_byte_cnt s = 12
  /\ length (g_data_buffer s) = 12%nat
  /\ bit_writes (IR_is_data_available s).2 = (12, 7, false) :: bit_writes s
  /\ (IR_is_data_available s).1 = true
  /\ (forall s, exists new,
         bit_writes (update_data_buffer s) = new ++ bit_writes s
         /\ Forall (fun w => w.1.1 = g_byte_cnt s) new).
Proof.
  split; [vm_compute; reflexivity|].
  split; [vm_compute; reflexivity|].
  split; [vm_compute; reflexivity|].
  split; [vm_compute; reflexivity|].
  split; [vm_compute; reflexivity|].
  intros s. destruct (update_data_buffer_writes s) as (_ & new & E & F).
  exists new. split; [exact E|].
  rewrite Forall_forall in F |- *. intros w Hw. apply (F w Hw).
Qed.

(** ** The emitter's line *)

Lemma join_replicate_comm {A} (a : list A) n :
  mjoin (replicate n a) ++ a = a ++ mjoin (replicate n a).
Proof.
  induction n as [|n IH]; cbn [replicate mjoin list_join].
  - rewrite app_nil_r. reflexivity.
  - rewrite <- app_assoc. f_equal. exact IH.
Qed.

Lemma emits_iter f a n :
  emits f a -> emits (Nat.iter n f) (mjoin (replicate n a)).
Proof.
  intros Hf. induction n as [|n IH]; intros s.
  - cbn. rewrite app_nil_r. auto.
  - rewrite Nat.iter_succ.
    destruct (Hf (Nat.iter n f s)) as (-> & -> & ->).
    destruct (IH s) as (-> & -> & ->).
    split; [|auto]. cbn [replicate mjoin list_join].
    rewrite <- app_assoc. f_equal. apply join_replicate_comm.
Qed.

Lemma emits_foldl {A} (f : A -> emitter -> emitter) (g : A -> list signal) xs :
  (forall x, emits (f x) (g x)) ->
  emits (fun s => foldl (fun s x => f x s) s xs) (mjoin (g <$> xs)).
Proof.
  intros Hf. induction xs as [|x xs IH]; intros s.
  - cbn. rewrite app_nil_r. auto.
  - cbn [foldl fmap list_fmap mjoin list_join].
    destruct (IH (f x s)) as (-> & -> & ->).
    destruct (Hf x s) as (-> & -> & ->).
    rewrite <- app_assoc. auto.
Qed.

Lemma emitted_by_emits f out s : emits f out -> emitted_by f s = out.
Proof.
  intros H. unfold emitted_by. destruct (H s) as (-> & _).
  apply drop_app_length.
Qed.

Lemma emitted_by_emits_from f out reads s :
  emits_from f out reads ->
  emitted_by f s = out (outside_table s) (half_start_bits s).
Proof.
  intros H. unfold emitted_by. destruct (H s) as (-> & _).
  apply drop_app_length.
Qed.

Lemma carrier_cycle_emits : emits carrier_cycle cycle_signals.
Proof.
  intros s.
  unfold carrier_cycle, _delay_us, write_PORTD, cycle_signals, _setBit, _clearBit.
  cbn [line PORTD DDRD half_start_bits outside_table].
  rewrite testbit_set_bit, testbit_clear_bit by (unfold IR_LED; lia).
  rewrite !decide_True by reflexivity.
  rewrite <- !app_assoc. auto.
Qed.

Lemma ir_led_transmission_emits level :
  emits (ir_led_transmission level) (level_signals level).
Proof.
  destruct level; cbn [ir_led_transmission level_signals].
  - apply emits_iter, carrier_cycle_emits.
  - intros s. cbn. auto.
  - intros s. cbn. auto.
  - intros s. cbn. auto.
  - intros s. cbn. auto.
Qed.

Lemma table_emits table n :
  emits (fun s => foldl (fun s i => ir_led_transmission (level_at table i) s)
                    s (seqZ 0 n))
        (table_signals table n).
Proof.
  apply (emits_foldl (fun i => ir_led_transmission (level_at table i))
           (fun i => level_signals (level_at table i))).
  intros i. apply ir_led_transmission_emits.
Qed.

(** One read through the pointer: the signals of the byte read, and the
    pointer one further. *)
Lemma half_start_turn_emits :
  emits_from half_start_turn (fun outside p => byte_signals (byte_at outside p)) 1.
Proof.
  intros s. unfold half_start_turn, ir_led_transmission_byte, byte_signals.
  destruct (level_of_code (byte_at (outside_table s) (half_start_bits s)))
    as [level|].
  - destruct (ir_led_transmission_emits level
                (set_half_start_bits (half_start_bits s + 1) s)) as (-> & -> & ->).
    cbn. auto.
  - cbn. rewrite app_nil_r. auto.
Qed.

Lemma frame_transmission_emits data_frame len :
  emits_from (frame_transmission data_frame len) (frame_signals data_frame len) 2.
Proof.
  intros s. unfold frame_transmission, frame_signals, preamble_signals.
  change (seqZ 0 sizeof_half_start_bits) with [0; 1]. cbn [foldl].
  destruct (half_start_turn_emits s) as (L1 & P1 & M1).
  destruct (half_start_turn_emits (half_start_turn s)) as (L2 & P2 & M2).
  destruct (table_emits data_frame len (half_start_turn (half_start_turn s)))
    as (L3 & P3 & M3).
  cbv beta in L3, P3, M3.
  cbn [_delay_ms line half_start_bits outside_table].
  rewrite L3, P3, M3, L2, P2, M2, L1, P1, M1, <- !app_assoc.
  split; [reflexivity|]. split; [lia|reflexivity].
Qed.

Lemma frames_emits frames lens ks :
  emits_from
    (fun s => foldl (fun s i => frame_transmission (nth (Z.to_nat i) frames [])
                                  (rd lens i) s) s ks)
    (frames_signals frames lens ks) (2 * Z.of_nat (length ks)).
Proof.
  induction ks as [|k ks IH]; intros s.
  - cbn. rewrite app_nil_r. split; [reflexivity|]. split; [lia|reflexivity].
  - cbn [foldl frames_signals].
    destruct (IH (frame_transmission (nth (Z.to_nat k) frames []) (rd lens k) s))
      as (L & P & M).
    cbv beta in L, P, M.
    destruct (frame_transmission_emits (nth (Z.to_nat k) frames []) (rd lens k) s)
      as (L' & P' & M').
    rewrite L, P, M, L', P', M', <- app_assoc.
    split; [reflexivity|]. split; [|reflexivity].
    cbn [length]. lia.
Qed.

Lemma command_transmission_emits frames lens n :
  0 <= n ->
  emits_from (command_transmission frames lens n)
    (command_signals frames lens n) (2 * n).
Proof.
  intros Hn s.
  destruct (frames_emits frames lens (seqZ 0 n) s) as (L & P & M).
  unfold command_transmission, command_signals.
  rewrite L, P, M, length_seqZ.
  split; [reflexivity|]. split; [lia|reflexivity].
Qed.

Lemma payload_emits command :
  emits_from
    (fun s =>
       if command =? GET_COUNTER then
         command_transmission g_get_couter_cmd g_get_counter_cmd_len
           (sizeof g_get_counter_cmd_len) s
       else if command =? CLEAN_MEMORY then
         command_transmission g_clean_memory_cmd g_clean_memory_cmd_len
           (sizeof g_clean_memory_cmd_len) s
       else s)
    (payload_signals command) (2 * payload_frames command).
Proof.
  intros s. unfold payload_signals, payload_frames.
  destruct (command =? GET_COUNTER); [|destruct (command =? CLEAN_MEMORY)].
  - apply command_transmission_emits. vm_compute. discriminate.
  - apply command_transmission_emits. vm_compute. discriminate.
  - rewrite app_nil_r. split; [reflexivity|]. split; [lia|reflexivity].
Qed.

Lemma IR_send_request_emits command :
  emits_from (IR_send_request command) (request_signals command)
    (2 * request_frames command).
Proof.
  intros s. unfold IR_send_request, request_signals, request_frames.
  cbv zeta.
  destruct (command_transmission_emits g_start_cmd g_start_cmd_len
              (sizeof g_start_cmd_len) ltac:(vm_compute; discriminate) s)
    as (L1 & P1 & M1).
  revert L1 P1 M1.
  generalize (command_transmission g_start_cmd g_start_cmd_len
                (sizeof g_start_cmd_len) s).
  intros s1 L1 P1 M1.
  destruct (payload_emits command (_delay_ms START_TIME s1)) as (L2 & P2 & M2).
  cbv beta in L2, P2, M2. revert L2 P2 M2.
  generalize (if command =? GET_COUNTER
              then command_transmission g_get_couter_cmd g_get_counter_cmd_len
                     (sizeof g_get_counter_cmd_len) (_delay_ms START_TIME s1)
              else if command =? CLEAN_MEMORY
                   then command_transmission g_clean_memory_cmd
                          g_clean_memory_cmd_len (sizeof g_clean_memory_cmd_len)
                          (_delay_ms START_TIME s1)
                   else _delay_ms START_TIME s1).
  intros s2 L2 P2 M2.
  destruct (command_transmission_emits g_stop_cmd g_stop_cmd_len
              (sizeof g_stop_cmd_len) ltac:(vm_compute; discriminate) s2)
    as (L3 & P3 & M3).
  rewrite L3, P3, M3, L2, P2, M2.
  cbn [_delay_ms line half_start_bits outside_table].
  rewrite L1, P1, M1, <- !app_assoc.
  split; [reflexivity|]. split; [lia|reflexivity].
Qed.

Lemma byte_at_table p :
  0 <= p < 6 -> forall outside,
  byte_at outside p = level_code (level_at g_half_start_bits p).
Proof.
  intros Hp outside. unfold byte_at.
  change (sizeof g_half_start_bits) with 6.
  destruct (Z.leb_spec 0 p); [|lia]. destruct (Z.ltb_spec p 6); [|lia].
  reflexivity.
Qed.

Lemma byte_at_outside outside p : 6 <= p -> byte_at outside p = outside p.
Proof.
  intros Hp. unfold byte_at. change (sizeof g_half_start_bits) with 6.
  destruct (Z.ltb_spec p 6); [lia|]. rewrite andb_false_r. reflexivity.
Qed.

(** A byte other than the code of [HIGH_LEVEL] switches the LED on at no
    time: it is a single wait, or nothing. *)
Lemma byte_signals_low byte :
  byte <> 0 -> byte_signals byte = [] \/ exists t, byte_signals byte = [Delay_us t].
Proof.
  intros Hb. unfold byte_signals, level_of_code.
  destruct (Z.eqb_spec byte 0); [contradiction|].
  repeat match goal with
         | |- context [if ?c then _ else _] => destruct c
         end; cbn [level_signals]; eauto.
Qed.

Lemma request_signals_clean_memory outside :
  request_signals CLEAN_MEMORY outside 0
  = mjoin (render <$> (framed_once g_ascii_ESC ++ framed_once g_ascii_DP
                       ++ [StartupGap] ++ framed_once g_ascii_C))
    ++ preamble_signals outside 6 ++ mjoin (render <$> unframed g_ascii_N)
    ++ preamble_signals outside 8 ++ mjoin (render <$> unframed g_ascii_F)
    ++ preamble_signals outside 10 ++ mjoin (render <$> unframed g_ascii_G)
    ++ preamble_signals outside 12 ++ mjoin (render <$> unframed g_ascii_DEL)
    ++ preamble_signals outside 14 ++ mjoin (render <$> unframed g_ascii_FF)
    ++ preamble_signals outside 16 ++ mjoin (render <$> unframed g_ascii_EOT).
Proof.
  unfold request_signals, payload_signals, command_signals.
  change (CLEAN_MEMORY =? GET_COUNTER) with false.
  change (CLEAN_MEMORY =? CLEAN_MEMORY) with true. cbv iota.
  change (seqZ 0 (sizeof g_start_cmd_len)) with [0; 1].
  change (seqZ 0 (sizeof g_stop_cmd_len)) with [0; 1].
  change (seqZ 0 (sizeof g_clean_memory_cmd_len)) with [0; 1; 2; 3; 4].
  cbn [frames_signals]. unfold frame_signals.
  rewrite !app_nil_r, <- !app_assoc.
  vm_compute. reflexivity.
Qed.

Lemma request_frames_at_least_4 command : 4 <= request_frames command.
Proof.
  unfold request_frames, payload_frames.
  destruct (command =? GET_COUNTER); [|destruct (command =? CLEAN_MEMORY)];
    vm_compute; discriminate.
Qed.

(** A request begins with the preamble of the frame of ESC: two bytes
    read through the pointer, then the levels of ESC, the first of which
    is the medium low level. *)
Lemma request_signals_head command outside p :
  exists rest,
    request_signals command outside p
    = byte_signals (byte_at outside p) ++ byte_signals (byte_at outside (p + 1))
      ++ Delay_us LOW_LEVEL2_TIME :: rest.
Proof.
  unfold request_signals, command_signals.
  change (seqZ 0 (sizeof g_start_cmd_len)) with [0; 1].
  cbn [frames_signals]. unfold frame_signals at 1, preamble_signals at 1.
  assert (table_signals (nth (Z.to_nat 0) g_start_cmd []) (rd g_start_cmd_len 0)
          = Delay_us LOW_LEVEL2_TIME
            :: tail (table_signals (nth (Z.to_nat 0) g_start_cmd [])
                       (rd g_start_cmd_len 0))) as ->
    by (vm_compute; reflexivity).
  eexists. rewrite <- !app_assoc. cbn [app]. reflexivity.
Qed.

Lemma high_level_signals_head :
  exists rest, byte_signals (level_code HIGH_LEVEL) = Led true :: rest.
Proof. eexists. vm_compute. reflexivity. Qed.

(** C5. With the pointer at the first element of [g_half_start_bits], a
    clean-memory request sends the frames and the delays in the order
    claimed: ESC, DP, 31.95 ms, C, N, F, G, DEL, FF, EOT, each frame
    followed by 2.84 ms.  The preamble is not the one claimed: each frame
    reads two bytes through the pointer, which is never set back.  The
    frames of ESC, DP and C are preceded by one (burst, short low) pair
    each, which uses up the table; the six frames after them are preceded
    by what the twelve bytes behind the table stand for, and the request
    leaves the pointer 18 bytes on.  Whatever those bytes are, the line
    differs from the claimed sequence of nine frames with three pairs
    each. *)
Theorem C5_one_preamble_pair_per_frame (s : emitter) :
  half_start_bits s = 0 ->
  emitted_by (IR_send_request CLEAN_MEMORY) s
  = mjoin (render <$> (framed_once g_ascii_ESC ++ framed_once g_ascii_DP
                       ++ [StartupGap] ++ framed_once g_ascii_C))
    ++ preamble_signals (outside_table s) 6
    ++ mjoin (render <$> unframed g_ascii_N)
    ++ preamble_signals (outside_table s) 8
    ++ mjoin (render <$> unframed g_ascii_F)
    ++ preamble_signals (outside_table s) 10
    ++ mjoin (render <$> unframed g_ascii_G)
    ++ preamble_signals (outside_table s) 12
    ++ mjoin (render <$> unframed g_ascii_DEL)
    ++ preamble_signals (outside_table s) 14
    ++ mjoin (render <$> unframed g_ascii_FF)
    ++ preamble_signals (outside_table s) 16
    ++ mjoin (render <$> unframed g_ascii_EOT)
  /\ half_start_bits (IR_send_request CLEAN_MEMORY s) = 18
  /\ emitted_by (IR_send_request CLEAN_MEMORY) s
     <> mjoin (render <$> clean_memory_transmission).
Proof.
  intros Hp.
  assert (emitted_by (IR_send_request CLEAN_MEMORY) s
          = request_signals CLEAN_MEMORY (outside_table s) 0) as Hout.
  { rewrite (emitted_by_emits_from _ _ _ s (IR_send_request_emits CLEAN_MEMORY)).
    rewrite Hp. reflexivity. }
  split; [|split].
  - rewrite Hout. apply request_signals_clean_memory.
  - destruct (IR_send_request_emits CLEAN_MEMORY s) as (_ & -> & _).
    rewrite Hp. reflexivity.
  - rewrite Hout, request_signals_clean_memory.
    generalize (outside_table s). intros outside Heq.
    apply (f_equal (fun signals => signals !! 33%nat)) in Heq.
    vm_compute in Heq. discriminate Heq.
Qed.

Lemma C5_one_preamble_pair_per_frame_witness :
  half_start_bits
    (IR_send_request CLEAN_MEMORY (IR_Emitter_init (emitter_power_on (fun _ => 255))))
  = 18.
Proof.
  apply (C5_one_preamble_pair_per_frame
           (IR_Emitter_init (emitter_power_on (fun _ => 255)))).
  reflexivity.
Defined.

(** C6. The encoder keeps state from one call to the next: every request
    moves the pointer through which the preamble is read by two bytes for
    each frame it sends, at least eight, and nothing moves it back.  With
    the pointer at the first element of [g_half_start_bits] a request
    opens with a burst read from the table; called again at once, it
    reads its first two bytes behind the table, and unless one of them
    happens to be the code of a burst it opens with a wait: the two calls
    put different signals on the line. *)
Theorem C6_second_request_differs (command : Z) (s : emitter) :
  half_start_bits (IR_send_request command s)
  = half_start_bits s + 2 * request_frames command
  /\ 4 <= request_frames command
  /\ outside_table (IR_send_request command s) = outside_table s
  /\ (half_start_bits s = 0 ->
      outside_table s (2 * request_frames command) <> 0 ->
      outside_table s (2 * request_frames command + 1) <> 0 ->
      head (emitted_by (IR_send_request command) s) = Some (Led true)
      /\ (exists t,
             head (emitted_by (IR_send_request command) (IR_send_request command s))
             = Some (Delay_us t))
      /\ emitted_by (IR_send_request command) (IR_send_request command s)
         <> emitted_by (IR_send_request command) s).
Proof.
  pose proof (request_frames_at_least_4 command) as Hframes.
  destruct (IR_send_request_emits command s) as (_ & Hpointer & Hmemory).
  split; [exact Hpointer|]. split; [exact Hframes|]. split; [exact Hmemory|].
  intros Hp Hb1 Hb2.
  assert (head (emitted_by (IR_send_request command) s) = Some (Led true)) as H1.
  { rewrite (emitted_by_emits_from _ _ _ s (IR_send_request_emits command)), Hp.
    destruct (request_signals_head command (outside_table s) 0) as (rest & ->).
    rewrite (byte_at_table 0) by lia.
    change (level_at g_half_start_bits 0) with HIGH_LEVEL.
    destruct high_level_signals_head as (cycles & ->). reflexivity. }
  assert (exists t,
             head (emitted_by (IR_send_request command) (IR_send_request command s))
             = Some (Delay_us t)) as H2.
  { rewrite (emitted_by_emits_from _ _ _ _ (IR_send_request_emits command)).
    rewrite Hpointer, Hmemory, Hp, Z.add_0_l.
    destruct (request_signals_head command (outside_table s)
                (2 * request_frames command)) as (rest & ->).
    rewrite !byte_at_outside by lia.
    destruct (byte_signals_low _ Hb1) as [-> | (t1 & ->)];
      [destruct (byte_signals_low _ Hb2) as [-> | (t2 & ->)]|];
      eexists; reflexivity. }
  split; [exact H1|]. split; [exact H2|].
  intros Heq. destruct H2 as (t & H2). rewrite Heq, H1 in H2. discriminate H2.
Qed.

Lemma C6_second_request_differs_witness :
  emitted_by (IR_send_request CLEAN_MEMORY)
    (IR_send_request CLEAN_MEMORY (IR_Emitter_init (emitter_power_on (fun _ => 255))))
  <> emitted_by (IR_send_request CLEAN_MEMORY)
       (IR_Emitter_init (emitter_power_on (fun _ => 255))).
Proof.
  apply (proj2 (proj2 (proj2 (C6_second_request_differs CLEAN_MEMORY
           (IR_Emitter_init (emitter_power_on (fun _ => 255))))))).
  - reflexivity.
  - vm_compute. discriminate.
  - vm_compute. discriminate.
Defined.

(** C9. The four low-level durations are 427.25 - 8 x 30.3, 427.25, the
    first plus the second, and the first plus twice the second; the
    inter-frame gap is 2.84 and the startup gap 31.95.  Each level waits
    for its constant in every state, every frame ends with the
    inter-frame gap, and the start command is followed by the startup
    gap. *)
Theorem C9_low_level_ladder :
  (LOW_LEVEL1_TIME == 427.25 - 8 * 30.3)%Q
  /\ (LOW_LEVEL2_TIME == 427.25)%Q
  /\ (LOW_LEVEL3_TIME == LOW_LEVEL1_TIME + LOW_LEVEL2_TIME)%Q
  /\ (LOW_LEVEL4_TIME == LOW_LEVEL1_TIME + 2 * LOW_LEVEL2_TIME)%Q
  /\ (STOP_TIME == 2.84)%Q
  /\ (START_TIME == 31.95)%Q
  /\ (forall s,
         emitted_by (ir_led_transmission LOW_LEVEL1) s = [Delay_us LOW_LEVEL1_TIME]
         /\ emitted_by (ir_led_transmission LOW_LEVEL2) s = [Delay_us LOW_LEVEL2_TIME]
         /\ emitted_by (ir_led_transmission LOW_LEVEL3) s = [Delay_us LOW_LEVEL3_TIME]
         /\ emitted_by (ir_led_transmission LOW_LEVEL4) s = [Delay_us LOW_LEVEL4_TIME])
  /\ (forall data_frame len s,
         exists levels,
           emitted_by (frame_transmission data_frame len) s
           = levels ++ [Delay_ms STOP_TIME])
  /\ (forall command s,
         exists rest,
           emitted_by (IR_send_request command) s
           = emitted_by (command_transmission g_start_cmd g_start_cmd_len 2) s
               ++ [Delay_ms START_TIME] ++ rest).
Proof.
  split; [reflexivity|]. split; [reflexivity|].
  split; [reflexivity|]. split; [reflexivity|].
  split; [reflexivity|]. split; [reflexivity|].
  split; [|split].
  - intros s.
    rewrite !(emitted_by_emits _ _ s (ir_led_transmission_emits _)).
    repeat split.
  - intros data_frame len s.
    rewrite (emitted_by_emits_from _ _ _ s (frame_transmission_emits _ _)).
    unfold frame_signals. eexists. rewrite app_assoc. reflexivity.
  - intros command s.
    rewrite (emitted_by_emits_from _ _ _ s (IR_send_request_emits _)).
    rewrite (emitted_by_emits_from _ _ _ s
               (command_transmission_emits g_start_cmd g_start_cmd_len 2
                  ltac:(lia))).
    unfold request_signals. eexists. reflexivity.
Qed.

(** ** More on polling *)

Lemma poll_status s :
  (IR_is_data_available s).1 = (g_byte_cnt s =? 12).
Proof.
  pose proof (update_data_buffer_capture_state s) as (Hcnt & _).
  unfold IR_is_data_available, DATA_BUFFER_SIZE.
  revert Hcnt. generalize (update_data_buffer s). intros d Hcnt.
  destruct (g_is_event_buffer_full s);
    cbn [g_byte_cnt set_is_event_buffer_full]; rewrite ?Hcnt;
    destruct (g_byte_cnt s =? 12); reflexivity.
Qed.

(** Polling twice in a row is polling once: the second call returns false
    and leaves every variable as the first call left it. *)
Theorem IR_is_data_available_twice (s : receiver) :
  IR_is_data_available (IR_is_data_available s).2
  = (false, (IR_is_data_available s).2).
Proof.
  pose proof (update_data_buffer_capture_state s) as (Hcnt & _).
  unfold IR_is_data_available at 2 3. unfold DATA_BUFFER_SIZE.
  revert Hcnt. generalize (update_data_buffer s). intros d Hcnt.
  destruct (g_is_event_buffer_full s) eqn:Hfull;
    cbn [g_byte_cnt set_is_event_buffer_full]; rewrite ?Hcnt;
    destruct (Z.eqb_spec (g_byte_cnt s) 12) as [E|E];
    unfold IR_is_data_available, DATA_BUFFER_SIZE; cbn -[Z.eqb];
    rewrite ?Hfull, ?Hcnt;
    try (destruct (Z.eqb_spec (g_byte_cnt s) 12); [lia|]);
    reflexivity.
Qed.

Lemma byte_cnt_bounded es :
  0 <= g_byte_cnt (run init es) <= captures es / 30.
Proof.
  induction es as [|e es IH] using rev_ind; [vm_compute; split; discriminate|].
  pose proof (run_invariant_holds es) as (Hi & _).
  pose proof (captures_nonneg es) as Hc0.
  assert (0 <= g_event_buffer_index (run init es) < 30) as Hrange
    by (rewrite Hi; apply Z.mod_pos_bound; lia).
  rewrite run_snoc, captures_snoc. destruct e as [|h l|]; cbn [step].
  - rewrite Z.add_0_r. exact IH.
  - pose proof (capture_fields h l _ Hrange) as (_ & _ & _ & _ & _ & _ & Hcase).
    cbv zeta in Hcase.
    destruct (decide (g_event_buffer_index (run init es) + 1 = 30)) as [E|E];
      destruct Hcase as (_ & _ & ->).
    + pose proof (u8_range (g_byte_cnt (run init es) + 1)).
      assert (u8 (g_byte_cnt (run init es) + 1) <= g_byte_cnt (run init es) + 1)
        by (unfold u8; apply Z.mod_le; lia).
      rewrite Hi in E. Z.div_mod_to_equations. lia.
    + Z.div_mod_to_equations. lia.
  - rewrite Z.add_0_r.
    destruct (poll_fields (run init es)) as (_ & _ & _ & _ & _ & [-> | ->]);
      [Z.div_mod_to_equations; lia|exact IH].
Qed.

(** From initialisation, data is reported available only after at least
    360 edges have been captured. *)
Theorem data_available_needs_360_captures (es : list event) :
  (IR_is_data_available (run init es)).1 = true -> 360 <= captures es.
Proof.
  rewrite poll_status. intros H%Z.eqb_eq.
  pose proof (byte_cnt_bounded es) as Hb. rewrite H in Hb.
  Z.div_mod_to_equations. lia.
Qed.

Lemma data_available_needs_360_captures_witness :
  360 <= captures twelve_windows_captured.
Proof.
  apply data_available_needs_360_captures. vm_compute. reflexivity.
Defined.

(** ** Pulse widths *)

(** The pulse width is the difference of the two timestamps modulo 2^16:
    exact for an interval below 2^16 ticks, also across a wrap of the
    16-bit timer, and the same for two intervals that differ by 2^16. *)
Theorem pulse_width_modular (event last_event : Z) :
  pulse_width_of event last_event = (event - last_event) mod 2 ^ 16
  /\ (0 <= event - last_event < 2 ^ 16 ->
      pulse_width_of event last_event = event - last_event)
  /\ pulse_width_of (event + 2 ^ 16) last_event = pulse_width_of event last_event.
Proof.
  assert (forall e l, pulse_width_of e l = (e - l) mod 2 ^ 16) as H.
  { intros e l. unfold pulse_width_of, u16, u64.
    rewrite Z.mod_mod_divide by (exists (2 ^ 48); reflexivity).
    apply Zminus_mod_idemp_l. }
  split; [apply H|]. split.
  - intros Hr. rewrite H. apply Z.mod_small. exact Hr.
  - rewrite !H. replace (event + 2 ^ 16 - last_event)
      with (event - last_event + 1 * 2 ^ 16) by lia.
    rewrite Z.mod_add by lia. reflexivity.
Qed.

Lemma pulse_width_modular_witness : pulse_width_of 65546 65500 = 65546 - 65500.
Proof. apply (proj1 (proj2 (pulse_width_modular 65546 65500))). lia. Defined.

(** ** The UART: waiting and sending *)

Lemma wait_for_busy bit busy reads :
  Forall (fun b => _read_bit b bit = 0) busy ->
  wait_for bit (busy ++ reads) = wait_for bit reads.
Proof.
  induction 1 as [|b busy Hb _ IH]; [reflexivity|].
  cbn [app wait_for]. rewrite Hb. exact IH.
Qed.

Lemma wait_for_ready bit r rest :
  _read_bit r bit <> 0 -> wait_for bit (r :: rest) = Some rest.
Proof.
  intros Hr. cbn [wait_for].
  destruct (Z.eqb_spec (_read_bit r bit) 0); [contradiction|reflexivity].
Qed.

Lemma wait_for_never bit reads :
  Forall (fun b => _read_bit b bit = 0) reads -> wait_for bit reads = None.
Proof.
  intros H. rewrite <- (app_nil_r reads). rewrite wait_for_busy by exact H.
  reflexivity.
Qed.

(** [UART_write_char] polls the status register through every read that
    shows the transmitter busy, then writes one byte, the low eight bits
    of its argument; while no read shows the transmitter empty it writes
    nothing. *)
Theorem UART_write_char_waits (c : Z) (busy : list Z) (rx tx : list Z) :
  Forall (fun b => _read_bit b UDRE0 = 0) busy ->
  UART_write_char c (Uart busy rx tx) = None
  /\ (forall r rest,
         _read_bit r UDRE0 <> 0 ->
         UART_write_char c (Uart (busy ++ r :: rest) rx tx)
         = Some (Uart rest rx (tx ++ [c mod 256]))).
Proof.
  intros Hbusy. unfold UART_write_char. cbn [UCSR0A_reads UDR0_rx UDR0_tx].
  split.
  - rewrite wait_for_never by exact Hbusy. reflexivity.
  - intros r rest Hr.
    rewrite wait_for_busy by exact Hbusy.
    rewrite wait_for_ready by exact Hr. reflexivity.
Qed.

Lemma UART_write_char_waits_witness :
  UART_write_char 321 (Uart [0; 128] [7] [1]) = None
  /\ UART_write_char 321 (Uart ([0; 128] ++ 32 :: [0]) [7] [1])
     = Some (Uart [0] [7] ([1] ++ [321 mod 256])).
Proof.
  destruct (UART_write_char_waits 321 [0; 128] [7] [1]) as [H1 H2].
  - repeat constructor.
  - split; [exact H1|]. apply H2. vm_compute. discriminate.
Defined.

Lemma always_set_drop bit n reads :
  always_set bit reads -> always_set bit (drop n reads).
Proof. apply Forall_drop. Qed.

Lemma sends_nil : sends Some [].
Proof.
  split.
  - intros u u' [= <-]. rewrite app_nil_r. split; reflexivity.
  - intros u _ _. exists u. split; reflexivity.
Qed.

Lemma sends_write_char c : sends (UART_write_char c) [u8 c].
Proof.
  split.
  - intros u u'. unfold UART_write_char.
    destruct (wait_for UDRE0 (UCSR0A_reads u)); [|discriminate].
    intros [= <-]. split; reflexivity.
  - intros u Hready Hlen. unfold UART_write_char.
    destruct (UCSR0A_reads u) as [|r rest]; [cbn in Hlen; lia|].
    rewrite wait_for_ready by (inversion Hready; assumption).
    eexists. split; reflexivity.
Qed.

Lemma sends_bind f g a b :
  sends f a -> sends g b -> sends (fun u => f u ≫= g) (a ++ b).
Proof.
  intros [Hf1 Hf2] [Hg1 Hg2]. split.
  - intros u u'. destruct (f u) as [v|] eqn:Ef; [|discriminate].
    cbn. intros Eg.
    destruct (Hf1 _ _ Ef) as [E1 E2]. destruct (Hg1 _ _ Eg) as [E3 E4].
    rewrite E3, E1, E4, E2, app_assoc. split; reflexivity.
  - intros u Hready Hlen. rewrite length_app in Hlen.
    destruct (Hf2 u Hready ltac:(lia)) as (v & Ef & Ev).
    destruct (Hg2 v) as (w & Eg & Ew).
    + rewrite Ev. apply always_set_drop, Hready.
    + rewrite Ev, length_drop. lia.
    + exists w. rewrite Ef. cbn. split; [exact Eg|].
      rewrite Ew, Ev, drop_drop, length_app. reflexivity.
Qed.

Lemma sends_ext f g text :
  (forall u, f u = g u) -> sends f text -> sends g text.
Proof.
  intros E [H1 H2]. split.
  - intros u u'. rewrite <- E. apply H1.
  - intros u. rewrite <- E. apply H2.
Qed.

Lemma sends_text f a b : a = b -> sends f a -> sends f b.
Proof. intros ->. auto. Qed.

(** ** Decimal output *)

Lemma udec_value_snoc text c :
  udec_value (text ++ [c]) = 10 * udec_value text + (c - 48).
Proof. unfold udec_value. rewrite foldl_snoc. reflexivity. Qed.

Lemma udec_digits_spec depth n :
  0 <= n < 10 ^ Z.of_nat (S depth) ->
  Forall (fun c => is_digit c = true) (udec_digits (S depth) n)
  /\ udec_value (udec_digits (S depth) n) = n
  /\ (1 <= length (udec_digits (S depth) n) <= S depth)%nat
  /\ (1 <= n -> head (udec_digits (S depth) n) <> Some 48).
Proof.
  revert n. induction depth as [|depth IH]; intros n Hn.
  - change (10 ^ Z.of_nat 1) with 10 in Hn.
    cbn [udec_digits]. destruct (Z.leb_spec 10 n) as [?|_]; [lia|].
    repeat split.
    + constructor; [|constructor]. unfold is_digit.
      apply andb_true_iff. split; apply Z.leb_le; lia.
    + unfold udec_value. cbn. lia.
    + cbn. lia.
    + cbn. lia.
    + cbn. intros ? [=]. lia.
  - rewrite Nat2Z.inj_succ, Z.pow_succ_r in Hn by lia.
    change (udec_digits (S (S depth)) n)
      with (if 10 <=? n then udec_digits (S depth) (n / 10) ++ [n mod 10 + 48]
            else [n + 48]).
    destruct (Z.leb_spec 10 n) as [Hge|Hlt].
    + assert (0 <= n / 10 < 10 ^ Z.of_nat (S depth)) as Hq
        by (split; [apply Z.div_pos; lia|apply Z.div_lt_upper_bound; lia]).
      assert (1 <= n / 10) as Hq1 by (apply Z.div_le_lower_bound; lia).
      destruct (IH _ Hq) as (Hd & Hv & Hl & Hh).
      pose proof (Z.mod_pos_bound n 10 ltac:(lia)) as Hm.
      repeat split.
      * apply Forall_app. split; [exact Hd|].
        constructor; [|constructor]. unfold is_digit.
        apply andb_true_iff. split; apply Z.leb_le; lia.
      * rewrite udec_value_snoc, Hv.
        pose proof (Z.div_mod n 10 ltac:(lia)). lia.
      * rewrite length_app. cbn [length]. lia.
      * rewrite length_app. cbn [length]. lia.
      * intros _. destruct (udec_digits (S depth) (n / 10)) as [|d ds] eqn:E;
          [cbn in Hl; lia|].
        cbn. apply Hh. exact Hq1.
    + repeat split.
      * constructor; [|constructor]. unfold is_digit.
        apply andb_true_iff. split; apply Z.leb_le; lia.
      * unfold udec_value. cbn. lia.
      * cbn. lia.
      * cbn. lia.
      * cbn. intros ? [=]. lia.
Qed.

Lemma u32_range z : 0 <= u32 z < 2 ^ 32.
Proof. unfold u32. apply Z.mod_pos_bound. lia. Qed.

Lemma u32_below_ten_digits z : 0 <= u32 z < 10 ^ Z.of_nat 10.
Proof. pose proof (u32_range z). change (10 ^ Z.of_nat 10) with 10000000000. lia. Qed.

Lemma u8_u32_small x : 0 <= x < 256 -> u8 (u32 x) = x.
Proof.
  intros H. unfold u8, u32.
  rewrite (Z.mod_small x (2 ^ 32)) by lia. apply Z.mod_small. lia.
Qed.

Lemma sends_write_udec_calls depth n :
  0 <= n < 10 ^ Z.of_nat (S depth) ->
  sends (write_udec_calls (S depth) n) (udec_digits (S depth) n).
Proof.
  revert n. induction depth as [|depth IH]; intros n Hn.
  - change (10 ^ Z.of_nat 1) with 10 in Hn.
    cbn [write_udec_calls udec_digits].
    destruct (Z.leb_spec 10 n) as [?|_]; [lia|].
    apply (sends_text _ [u8 (u32 (n + 48))]); [|apply sends_write_char].
    rewrite u8_u32_small by lia. reflexivity.
  - rewrite Nat2Z.inj_succ, Z.pow_succ_r in Hn by lia.
    change (write_udec_calls (S (S depth)) n)
      with (fun u => if 10 <=? n
                     then write_udec_calls (S depth) (n / 10) u
                            ≫= UART_write_char (u32 (n mod 10 + 48))
                     else UART_write_char (u32 (n + 48)) u).
    change (udec_digits (S (S depth)) n)
      with (if 10 <=? n then udec_digits (S depth) (n / 10) ++ [n mod 10 + 48]
            else [n + 48]).
    destruct (Z.leb_spec 10 n) as [Hge|Hlt].
    + pose proof (Z.mod_pos_bound n 10 ltac:(lia)) as Hm.
      apply sends_bind.
      * apply IH. split; [apply Z.div_pos; lia|apply Z.div_lt_upper_bound; lia].
      * apply (sends_text _ [u8 (u32 (n mod 10 + 48))]); [|apply sends_write_char].
        rewrite u8_u32_small by lia. reflexivity.
    + apply (sends_text _ [u8 (u32 (n + 48))]); [|apply sends_write_char].
      rewrite u8_u32_small by lia. reflexivity.
Qed.

Lemma write_udec_calls_deeper depth n u k :
  0 <= n < 10 ^ Z.of_nat (S depth) ->
  write_udec_calls (S depth + k) n u = write_udec_calls (S depth) n u.
Proof.
  revert n u. induction depth as [|depth IH]; intros n u Hn.
  - change (10 ^ Z.of_nat 1) with 10 in Hn.
    cbn [Nat.add write_udec_calls].
    destruct (Z.leb_spec 10 n) as [?|_]; [lia|reflexivity].
  - rewrite Nat2Z.inj_succ, Z.pow_succ_r in Hn by lia.
    change (S (S depth) + k)%nat with (S (S depth + k)).
    cbn [write_udec_calls].
    destruct (Z.leb_spec 10 n) as [Hge|Hlt]; [|reflexivity].
    rewrite IH; [reflexivity|].
    split; [apply Z.div_pos; lia|apply Z.div_lt_upper_bound; lia].
Qed.

Lemma UART_write_udec_sends n : sends (UART_write_udec n) (udec_text n).
Proof. apply (sends_write_udec_calls 9), u32_below_ten_digits. Qed.



(** Ten nested calls are what [UART_write_udec] needs at most: allowing
    more changes nothing, for any argument and any device. *)
Theorem UART_write_udec_depth (n : Z) (k : nat) (u : uart) :
  write_udec_calls (10 + k) (u32 n) u = UART_write_udec n u.
Proof. apply (write_udec_calls_deeper 9), u32_below_ten_digits. Qed.

(** ** Decimal input *)

Lemma UART_read_char_ready r reads c rx tx :
  _read_bit r RXC0 <> 0 ->
  UART_read_char (Uart (r :: reads) (c :: rx) tx) = Some (u8 c, Uart reads rx tx).
Proof.
  intros Hr. unfold UART_read_char. cbn [UCSR0A_reads UDR0_rx UDR0_tx].
  rewrite wait_for_ready by exact Hr. reflexivity.
Qed.

Lemma read_udec_loop_newline turns number u :
  read_udec_loop turns 10 number u = Some (number, u).
Proof. destruct turns; reflexivity. Qed.

Lemma read_udec_loop_line line :
  Forall is_byte line -> 10 ∉ line ->
  forall turns c number reads rest tx,
    c <> 10 ->
    always_set RXC0 reads ->
    (S (length line) <= length reads)%nat ->
    (S (length line) <= turns)%nat ->
    read_udec_loop turns c number (Uart reads (line ++ 10 :: rest) tx)
    = Some (foldl (fun a c => if is_digit c then u32 (10 * a + (c - 48)) else a)
              number (c :: line),
            Uart (drop (S (length line)) reads) rest tx).
Proof.
  induction line as [|c' line IH]; intros Hbytes Hnl turns c number reads rest tx
    Hc Hready Hreads Hturns.
  - destruct turns as [|turns]; [cbn in Hturns; lia|].
    destruct reads as [|r reads]; [cbn in Hreads; lia|].
    cbn [read_udec_loop app]. destruct (Z.eqb_spec c 10); [contradiction|].
    rewrite UART_read_char_ready by (inversion Hready; assumption).
    cbn [mbind option_bind fst snd]. change (u8 10) with 10.
    rewrite read_udec_loop_newline. reflexivity.
  - destruct turns as [|turns]; [cbn in Hturns; lia|].
    destruct reads as [|r reads]; [cbn in Hreads; lia|].
    apply Forall_cons_1 in Hbytes as [Hc' Hbytes].
    apply not_elem_of_cons in Hnl as [Hne Hnl].
    cbn [read_udec_loop app]. destruct (Z.eqb_spec c 10); [contradiction|].
    rewrite UART_read_char_ready by (inversion Hready; assumption).
    cbn [mbind option_bind fst snd]. rewrite (u8_small c') by exact Hc'.
    rewrite IH; try assumption.
    + reflexivity.
    + congruence.
    + inversion Hready; assumption.
    + cbn in Hreads. cbn. lia.
    + cbn in Hturns. cbn. lia.
Qed.

Lemma udec_accumulate chars :
  forall a b, u32 a = u32 b ->
  foldl (fun a c => if is_digit c then u32 (10 * a + (c - 48)) else a)
    (u32 a) chars
  = u32 (foldl (fun a c => 10 * a + (c - 48)) b (List.filter is_digit chars)).
Proof.
  induction chars as [|c chars IH]; intros a b Hab; [exact Hab|].
  cbn [foldl List.filter]. destruct (is_digit c).
  - cbn [foldl]. rewrite <- (IH (10 * u32 a + (c - 48))); [|].
    + reflexivity.
    + unfold u32 in *.
      rewrite Z.add_mod, Z.mul_mod, Z.mod_mod, Hab by lia.
      rewrite <- Z.mul_mod, <- Z.add_mod by lia. reflexivity.
  - apply IH, Hab.
Qed.

Lemma UART_read_udec_line (line rest reads tx : list Z) :
  Forall is_byte line -> 10 ∉ line ->
  always_set RXC0 reads ->
  (S (length line) <= length reads)%nat ->
  UART_read_udec (Uart reads (line ++ 10 :: rest) tx)
  = Some (foldl (fun a c => if is_digit c then u32 (10 * a + (c - 48)) else a)
            0 line,
          Uart (drop (S (length line)) reads) rest tx).
Proof.
  intros Hbytes Hnl Hready Hreads. unfold UART_read_udec.
  destruct reads as [|r reads]; [cbn in Hreads; lia|].
  destruct line as [|c line].
  - cbn [app]. rewrite UART_read_char_ready by (inversion Hready; assumption).
    cbn [mbind option_bind fst snd]. change (u8 10) with 10.
    rewrite read_udec_loop_newline. reflexivity.
  - apply Forall_cons_1 in Hbytes as [Hc Hbytes].
    apply not_elem_of_cons in Hnl as [Hne Hnl].
    cbn [app]. rewrite UART_read_char_ready by (inversion Hready; assumption).
    cbn [mbind option_bind fst snd UDR0_rx]. rewrite (u8_small c) by exact Hc.
    rewrite read_udec_loop_line; try assumption.
    + reflexivity.
    + congruence.
    + inversion Hready; assumption.
    + cbn in Hreads. lia.
    + rewrite length_app. cbn. lia.
Qed.



Lemma read_udec_loop_no_newline rx :
  Forall is_byte rx -> 10 ∉ rx ->
  forall turns c number reads tx,
    c <> 10 -> read_udec_loop turns c number (Uart reads rx tx) = None.
Proof.
  induction rx as [|c' rx IH]; intros Hbytes Hnl turns c number reads tx Hc;
    destruct turns as [|turns]; cbn [read_udec_loop];
    destruct (Z.eqb_spec c 10); try contradiction; try reflexivity.
  - unfold UART_read_char. cbn [UCSR0A_reads UDR0_rx].
    destruct (wait_for RXC0 reads); reflexivity.
  - apply Forall_cons_1 in Hbytes as [Hc' Hbytes].
    apply not_elem_of_cons in Hnl as [Hne Hnl].
    unfold UART_read_char. cbn [UCSR0A_reads UDR0_rx UDR0_tx].
    destruct (wait_for RXC0 reads) as [reads'|]; [|reflexivity].
    cbn [mbind option_bind fst snd]. rewrite (u8_small c') by exact Hc'.
    apply IH; try assumption. congruence.
Qed.

(** Without a newline among the bytes to come, [UART_read_udec] does not
    return, whatever digits it has read. *)
Theorem UART_read_udec_needs_newline (rx reads tx : list Z) :
  Forall is_byte rx -> 10 ∉ rx ->
  UART_read_udec (Uart reads rx tx) = None.
Proof.
  intros Hbytes Hnl. unfold UART_read_udec, UART_read_char.
  cbn [UCSR0A_reads UDR0_rx UDR0_tx].
  destruct (wait_for RXC0 reads) as [reads'|]; [|reflexivity].
  destruct rx as [|c rx]; [reflexivity|].
  apply Forall_cons_1 in Hbytes as [Hc Hbytes].
  apply not_elem_of_cons in Hnl as [Hne Hnl].
  cbn [mbind option_bind fst snd UDR0_rx]. rewrite (u8_small c) by exact Hc.
  apply read_udec_loop_no_newline; try assumption. congruence.
Qed.

Lemma UART_read_udec_needs_newline_witness :
  UART_read_udec (Uart (replicate 9 128) [49; 50; 51] []) = None.
Proof.
  apply UART_read_udec_needs_newline.
  - repeat constructor; unfold is_byte; lia.
  - intros H. apply list_elem_of_In in H. simpl in H. lia.
Defined.

Lemma digits_are_bytes text :
  Forall (fun c => is_digit c = true) text ->
  Forall is_byte text /\ (10 ∉ text) /\ List.filter is_digit text = text.
Proof.
  induction 1 as [|c text Hc _ (Hb & Hn & Hf)].
  - repeat split; [constructor|apply not_elem_of_nil].
  - pose proof Hc as Hc'. unfold is_digit in Hc'.
    apply andb_true_iff in Hc' as [H1 H2].
    apply Z.leb_le in H1, H2. repeat split.
    + constructor; [unfold is_byte; lia|exact Hb].
    + apply not_elem_of_cons. split; [lia|exact Hn].
    + cbn [List.filter]. rewrite Hc, Hf. reflexivity.
Qed.



(** ** Reading a line into a buffer *)

Lemma read_string_loop_newline turns buffer i size u :
  read_string_loop turns 10 buffer i size u = Some (wr buffer i 0, i, u).
Proof. destruct turns; reflexivity. Qed.

Lemma read_string_loop_line line :
  Forall is_byte line -> 10 ∉ line ->
  forall turns c buffer i size reads rest tx,
    c <> 10 ->
    always_set RXC0 reads ->
    (S (length line) <= length reads)%nat ->
    (S (length line) <= turns)%nat ->
    read_string_loop turns c buffer i size (Uart reads (line ++ 10 :: rest) tx)
    = let r := foldl (store_character (u16 (size - 1))) (buffer, i) (c :: line) in
      Some (wr r.1 r.2 0, r.2, Uart (drop (S (length line)) reads) rest tx).
Proof.
  induction line as [|c' line IH]; intros Hbytes Hnl turns c buffer i size reads
    rest tx Hc Hready Hreads Hturns.
  - destruct turns as [|turns]; [cbn in Hturns; lia|].
    destruct reads as [|r reads]; [cbn in Hreads; lia|].
    cbn [read_string_loop app]. destruct (Z.eqb_spec c 10); [contradiction|].
    rewrite UART_read_char_ready by (inversion Hready; assumption).
    cbn [mbind option_bind fst snd]. change (u8 10) with 10.
    rewrite read_string_loop_newline. reflexivity.
  - destruct turns as [|turns]; [cbn in Hturns; lia|].
    destruct reads as [|r reads]; [cbn in Hreads; lia|].
    apply Forall_cons_1 in Hbytes as [Hc' Hbytes].
    apply not_elem_of_cons in Hnl as [Hne Hnl].
    cbn [read_string_loop app]. destruct (Z.eqb_spec c 10); [contradiction|].
    rewrite UART_read_char_ready by (inversion Hready; assumption).
    cbn [mbind option_bind fst snd]. rewrite (u8_small c') by exact Hc'.
    assert (always_set RXC0 reads) as Hready' by (inversion Hready; assumption).
    assert (10 <> c') as Hne' by exact Hne.
    cbn [foldl].
    change (store_character (u16 (size - 1)) (buffer, i) c)
      with (if i <? u16 (size - 1) then (wr buffer i c, u16 (i + 1))
            else (buffer, i)).
    destruct (i <? u16 (size - 1)); cbn [fst snd];
      (rewrite IH; [reflexivity|assumption|assumption|congruence|assumption| |]);
      cbn in Hreads, Hturns |- *; lia.
Qed.

Lemma store_character_lt limit buffer i c :
  0 <= i < limit -> limit < 65536 ->
  store_character limit (buffer, i) c = (wr buffer i c, i + 1).
Proof.
  intros Hi Hl. unfold store_character. cbn [fst snd].
  destruct (Z.ltb_spec i limit); [|lia].
  unfold u16. rewrite Z.mod_small by lia. reflexivity.
Qed.

Lemma store_character_ge limit buffer i c :
  limit <= i -> store_character limit (buffer, i) c = (buffer, i).
Proof.
  intros Hi. unfold store_character. cbn [fst snd].
  destruct (Z.ltb_spec i limit); [lia|reflexivity].
Qed.

Lemma store_characters limit chars :
  forall buffer i,
    0 <= i <= limit -> limit < 65536 ->
    let r := foldl (store_character limit) (buffer, i) chars in
    r.2 = Z.min (i + Z.of_nat (length chars)) limit
    /\ (r.2 <= Z.of_nat (length buffer) ->
        r.1 = take (Z.to_nat i) buffer
                ++ take (Z.to_nat (r.2 - i)) chars
                ++ drop (Z.to_nat r.2) buffer).
Proof.
  induction chars as [|c chars IH]; intros buffer i Hi Hlimit.
  - cbn [foldl fst snd length]. split; [lia|]. intros _.
    rewrite Z.sub_diag. cbn [Z.to_nat take app]. symmetry. apply take_drop.
  - cbn [foldl]. destruct (Z.lt_ge_cases i limit) as [Hlt|Hge].
    + rewrite store_character_lt by lia.
      destruct (IH (wr buffer i c) (i + 1) ltac:(lia) Hlimit) as [Hidx Hbuf].
      cbv zeta in Hidx, Hbuf |- *.
      set (k := (foldl (store_character limit) (wr buffer i c, i + 1) chars).2) in *.
      split; [rewrite Hidx; cbn [length]; lia|].
      intros Hfit. unfold wr in Hbuf |- *. rewrite length_insert in Hbuf.
      rewrite (Hbuf Hfit). clear Hbuf.
      assert (i + 1 <= k) as Hk by lia.
      assert (Z.to_nat i < length buffer)%nat as Hin by lia.
      replace (Z.to_nat (i + 1)) with (S (Z.to_nat i)) by lia.
      rewrite (take_S_r _ _ c) by (apply list_lookup_insert_eq; exact Hin).
      rewrite take_insert_ge by lia.
      rewrite drop_insert_lt by lia.
      replace (Z.to_nat (k - i)) with (S (Z.to_nat (k - (i + 1)))) by lia.
      cbn [take]. rewrite <- app_assoc. reflexivity.
    + assert (i = limit) as -> by lia.
      rewrite store_character_ge by lia.
      destruct (IH buffer limit ltac:(lia) Hlimit) as [Hidx Hbuf].
      cbv zeta in Hidx, Hbuf |- *.
      set (k := (foldl (store_character limit) (buffer, limit) chars).2) in *.
      split; [rewrite Hidx; cbn [length]; lia|].
      intros Hfit. rewrite (Hbuf Hfit).
      replace (k - limit) with 0 by lia. reflexivity.
Qed.

Lemma UART_read_string_general buffer buffer_size line rest reads tx :
  Forall is_byte line -> 10 ∉ line ->
  always_set RXC0 reads ->
  (S (length line) <= length reads)%nat ->
  0 <= buffer_size < 65536 ->
  let k := Z.to_nat (Z.min (Z.of_nat (length line)) (u16 (buffer_size - 1))) in
  (k < length buffer)%nat ->
  UART_read_string buffer buffer_size (Uart reads (line ++ 10 :: rest) tx)
  = Some (take k line ++ 0 :: drop (S k) buffer, Z.of_nat k,
          Uart (drop (S (length line)) reads) rest tx).
Proof.
  intros Hbytes Hnl Hready Hreads Hsize k Hk. unfold UART_read_string.
  pose proof (u16_range (buffer_size - 1)) as Hlimit.
  destruct reads as [|r reads]; [cbn in Hreads; lia|].
  assert (u16 buffer_size = buffer_size) as -> by (apply Z.mod_small; lia).
  destruct line as [|c line].
  - cbn [app]. rewrite UART_read_char_ready by (inversion Hready; assumption).
    cbn [mbind option_bind fst snd]. change (u8 10) with 10.
    rewrite read_string_loop_newline.
    assert (k = 0%nat) as -> by (subst k; cbn [length]; lia).
    cbn [take app Z.of_nat]. unfold wr. cbn [Z.to_nat].
    destruct buffer as [|b buffer]; [cbn in Hk; lia|]. reflexivity.
  - apply Forall_cons_1 in Hbytes as [Hc Hbytes].
    apply not_elem_of_cons in Hnl as [Hne Hnl].
    cbn [app]. rewrite UART_read_char_ready by (inversion Hready; assumption).
    cbn [mbind option_bind fst snd UDR0_rx]. rewrite (u8_small c) by exact Hc.
    rewrite read_string_loop_line; try assumption; cycle 1.
    { congruence. }
    { inversion Hready; assumption. }
    { cbn in Hreads. lia. }
    { rewrite length_app. cbn. lia. }
    destruct (store_characters (u16 (buffer_size - 1)) (c :: line) buffer 0
                ltac:(lia) ltac:(lia)) as [Hidx Hbuf].
    cbv zeta in Hidx, Hbuf |- *.
    set (res := foldl (store_character (u16 (buffer_size - 1))) (buffer, 0) (c :: line))
      in *.
    rewrite Z.add_0_l in Hidx.
    assert (res.2 = Z.of_nat k) as Hr by (subst k; lia).
    rewrite Hr in *. rewrite Hbuf by lia.
    rewrite Z.sub_0_r, !Nat2Z.id. change (Z.to_nat 0) with 0%nat.
    rewrite take_0. cbn [app]. unfold wr. rewrite Nat2Z.id.
    rewrite insert_app_r_alt by (rewrite length_take; lia).
    rewrite length_take.
    replace (k - k `min` length (c :: line))%nat with 0%nat by lia.
    destruct (lookup_lt_is_Some_2 buffer k Hk) as [b Hb].
    rewrite (drop_S _ _ _ Hb). reflexivity.
Qed.





(** ** Strings and formats *)

Lemma sends_write_chars text : sends (write_chars text) (u8 <$> text).
Proof.
  induction text as [|c text IH]; [apply sends_nil|].
  apply (sends_bind (UART_write_char c) (write_chars text) [u8 c]);
    [apply sends_write_char|exact IH].
Qed.

Lemma UART_write_string_text text :
  0 ∉ text ->
  forall rest u, UART_write_string (text ++ 0 :: rest) u = write_chars text u.
Proof.
  induction text as [|c text IH]; intros Hz rest u; [reflexivity|].
  apply not_elem_of_cons in Hz as [Hc Hz].
  cbn [app UART_write_string write_chars].
  destruct (Z.eqb_spec c 0); [congruence|].
  destruct (UART_write_char c u) as [v|]; [|reflexivity].
  cbn. apply IH, Hz.
Qed.



Lemma UART_printf_text text :
  Forall (fun c => c <> 0 /\ c <> 37) text ->
  forall rest arg u,
    UART_printf (text ++ rest) arg u = write_chars text u ≫= UART_printf rest arg.
Proof.
  induction 1 as [|c text [H0 H37] _ IH]; intros rest arg u; [reflexivity|].
  cbn [app UART_printf write_chars].
  destruct (Z.eqb_spec c 0); [contradiction|].
  destruct (Z.eqb_spec c 37); [contradiction|]. cbn [negb].
  destruct (UART_write_char c u) as [v|]; [|reflexivity].
  cbn. apply IH.
Qed.



(** After a ['%'], a character other than [c], [u] and [s] is consumed
    without output and without using an argument.  This holds for the
    terminating NUL too: the format then goes on with the memory behind
    the string. *)
Theorem UART_printf_percent (text : list Z) (conversion : Z) (more : list Z)
    (arg : list va_arg) (u : uart) :
  Forall (fun c => c <> 0 /\ c <> 37) text ->
  conversion <> 99 -> conversion <> 117 -> conversion <> 115 ->
  UART_printf (text ++ 37 :: conversion :: more) arg u
  = write_chars text u ≫= UART_printf more arg.
Proof.
  intros Hplain Hc Hu Hs. rewrite !UART_printf_text by exact Hplain.
  destruct (write_chars text u) as [v|]; [|reflexivity]. cbn.
  unfold printf_convert.
  destruct (Z.eqb_spec conversion 99); [contradiction|].
  destruct (Z.eqb_spec conversion 117); [contradiction|].
  destruct (Z.eqb_spec conversion 115); [contradiction|]. reflexivity.
Qed.

Lemma UART_printf_percent_witness :
  UART_printf ([65] ++ 37 :: 0 :: [66; 0]) [] (Uart (replicate 3 32) [] [])
  = write_chars [65] (Uart (replicate 3 32) [] []) ≫= UART_printf [66; 0] [].
Proof.
  apply UART_printf_percent; [repeat constructor; lia|lia|lia|lia].
Defined.

(** The call [UART_printf("Byte: %u\n", v)] transmits ["Byte: "], the decimal
    digits of [v] modulo 2^32, and a newline. *)
Lemma UART_printf_byte_sends (v : Z) (more : list va_arg) :
  sends (UART_printf byte_format (VaInt v :: more)) (byte_line v).
Proof.
  apply (sends_ext
           (fun u => write_chars [66; 121; 116; 101; 58; 32] u
                       ≫= fun u => UART_write_udec v u
                       ≫= fun u => write_chars [10] u ≫= Some)).
  - intros u.
    change byte_format with ([66; 121; 116; 101; 58; 32] ++ [37; 117; 10; 0]).
    rewrite (UART_printf_text [66; 121; 116; 101; 58; 32])
      by (repeat constructor; lia).
    destruct (write_chars _ u) as [u1|]; [|reflexivity]. cbn [mbind option_bind].
    cbn [UART_printf Z.eqb Pos.eqb negb printf_convert].
    destruct (UART_write_udec v u1) as [u2|]; [|reflexivity].
    cbn [mbind option_bind fst snd write_chars].
    destruct (UART_write_char 10 u2) as [u3|]; reflexivity.
  - unfold byte_line.
    apply (sends_bind (write_chars [66; 121; 116; 101; 58; 32])).
    + apply (sends_write_chars [66; 121; 116; 101; 58; 32]).
    + apply (sends_bind (UART_write_udec v)).
      * apply UART_write_udec_sends.
      * rewrite <- (app_nil_r [10]).
        apply (sends_bind (write_chars [10]) Some);
          [apply (sends_write_chars [10])|apply sends_nil].
Qed.

(** ** The receiver's main loop *)

Lemma foldl_bind_none {A} (f : Z -> A -> option A) ks :
  foldl (fun o i => u ← o; f i u) None ks = None.
Proof. induction ks as [|k ks IH]; [reflexivity|exact IH]. Qed.

Lemma sends_foldl (f : Z -> uart -> option uart) (g : Z -> list Z) ks :
  (forall i, sends (f i) (g i)) ->
  sends (fun u => foldl (fun o i => u ← o; f i u) (Some u) ks) (mjoin (g <$> ks)).
Proof.
  intros Hf. induction ks as [|k ks IH]; [apply sends_nil|].
  cbn [fmap list_fmap mjoin list_join].
  apply (sends_ext
           (fun u => f k u ≫= fun u => foldl (fun o i => u ← o; f i u) (Some u) ks)).
  - intros u. cbn [foldl mbind option_bind].
    destruct (f k u); [reflexivity|]. symmetry. apply foldl_bind_none.
  - apply sends_bind; [apply Hf|exact IH].
Qed.

Lemma print_data_sends data :
  sends (print_data data) (mjoin ((fun i => byte_line (rd data i)) <$> seqZ 0 12)).
Proof.
  apply (sends_foldl (fun i => UART_printf byte_format [VaInt (rd data i)])
           (fun i => byte_line (rd data i))).
  intros i. apply UART_printf_byte_sends.
Qed.

Lemma poll_resets_byte_cnt s :
  g_byte_cnt s = 12 -> g_byte_cnt (IR_is_data_available s).2 = 0.
Proof.
  intros H12.
  pose proof (update_data_buffer_capture_state s) as (Hcnt & _).
  unfold IR_is_data_available, DATA_BUFFER_SIZE.
  revert Hcnt. generalize (update_data_buffer s). intros d Hcnt.
  destruct (g_is_event_buffer_full s);
    cbn [g_byte_cnt set_is_event_buffer_full]; rewrite ?Hcnt, H12; reflexivity.
Qed.


